(** * libdns/regfish: record conversion and reconciliation

    A shallow embedding of the regfish provider for libdns
    ([provider.go], [client.go]) together with the properties of its
    name normalizer, record converter, matcher, upsert engine and batch
    operations. *)

From Stdlib Require Import Ascii String ZArith NArith Lia Bool Arith List.
Import ListNotations.

Local Open Scope list_scope.

(** ** Go strings

    A Go [string] is an immutable sequence of bytes; it is modelled as a
    list of 8-bit characters.  [str] turns a literal into such a list. *)

Definition gostring : Type := list ascii.

Definition str (s : string) : gostring := list_ascii_of_string s.

Definition byte_of (c : ascii) : Z := Z.of_N (N_of_ascii c).

Fixpoint streq (a b : gostring) : bool :=
  match a, b with
  | [], [] => true
  | x :: a', y :: b' => Ascii.eqb x y && streq a' b'
  | _, _ => false
  end.

Definition dot : ascii := "."%char.
Definition space : ascii := " "%char.

(** [s[:hi]]: a slice expression panics ([None]) when [hi] is out of
    range. *)
Definition slice_to (s : gostring) (hi : Z) : option gostring :=
  if (0 <=? hi)%Z && (hi <=? Z.of_nat (length s))%Z
  then Some (firstn (Z.to_nat hi) s)
  else None.

Module utf8.

Definition RuneError : Z := 0xFFFD.

Definition cont (b : Z) : bool := (0x80 <=? b)%Z && (b <=? 0xBF)%Z.

Definition bits (b mask : Z) (shift : Z) : Z := Z.shiftl (Z.land b mask) shift.

(** [utf8.DecodeRuneInString]: the rune at the head of [s] and its width
    in bytes; an invalid or truncated encoding is [RuneError] of
    width 1. *)
Definition DecodeRune (s : gostring) : Z * nat :=
  match s with
  | [] => (RuneError, 0%nat)
  | c0 :: t =>
      let b0 := byte_of c0 in
      if (b0 <? 0x80)%Z then (b0, 1%nat)
      else if (0xC2 <=? b0)%Z && (b0 <=? 0xDF)%Z then
        match t with
        | c1 :: _ =>
            let b1 := byte_of c1 in
            if cont b1
            then (Z.lor (bits b0 0x1F 6) (bits b1 0x3F 0), 2%nat)
            else (RuneError, 1%nat)
        | _ => (RuneError, 1%nat)
        end
      else if (0xE0 <=? b0)%Z && (b0 <=? 0xEF)%Z then
        let lo := if (b0 =? 0xE0)%Z then 0xA0%Z else 0x80%Z in
        let hi := if (b0 =? 0xED)%Z then 0x9F%Z else 0xBF%Z in
        match t with
        | c1 :: c2 :: _ =>
            let b1 := byte_of c1 in
            let b2 := byte_of c2 in
            if (lo <=? b1)%Z && (b1 <=? hi)%Z && cont b2
            then (Z.lor (bits b0 0x0F 12)
                    (Z.lor (bits b1 0x3F 6) (bits b2 0x3F 0)), 3%nat)
            else (RuneError, 1%nat)
        | _ => (RuneError, 1%nat)
        end
      else if (0xF0 <=? b0)%Z && (b0 <=? 0xF4)%Z then
        let lo := if (b0 =? 0xF0)%Z then 0x90%Z else 0x80%Z in
        let hi := if (b0 =? 0xF4)%Z then 0x8F%Z else 0xBF%Z in
        match t with
        | c1 :: c2 :: c3 :: _ =>
            let b1 := byte_of c1 in
            let b2 := byte_of c2 in
            let b3 := byte_of c3 in
            if (lo <=? b1)%Z && (b1 <=? hi)%Z && cont b2 && cont b3
            then (Z.lor (bits b0 0x07 18)
                    (Z.lor (bits b1 0x3F 12)
                       (Z.lor (bits b2 0x3F 6) (bits b3 0x3F 0))), 4%nat)
            else (RuneError, 1%nat)
        | _ => (RuneError, 1%nat)
        end
      else (RuneError, 1%nat)
  end.

End utf8.

Module unicode.

(** [unicode.IsSpace]: the Latin-1 spaces and the [White_Space]
    property above Latin-1. *)
Definition IsSpace (r : Z) : bool :=
  ((0x09 <=? r) && (r <=? 0x0D) || (r =? 0x20) || (r =? 0x85) || (r =? 0xA0)
   || (r =? 0x1680) || (0x2000 <=? r) && (r <=? 0x200A)
   || (r =? 0x2028) || (r =? 0x2029) || (r =? 0x202F) || (r =? 0x205F)
   || (r =? 0x3000))%Z.

End unicode.

Module strings.

(** [strings.HasSuffix(s, suffix)]:
    [len(s) >= len(suffix) && s[len(s)-len(suffix):] == suffix]. *)
Definition HasSuffix (s suffix : gostring) : bool :=
  (length suffix <=? length s)%nat
  && streq (skipn (length s - length suffix) s) suffix.

(** [strings.TrimSuffix(s, suffix)]. *)
Definition TrimSuffix (s suffix : gostring) : gostring :=
  if HasSuffix s suffix then firstn (length s - length suffix) s else s.

(** [strings.TrimRight(s, cutset)] for a one-byte ASCII cutset [c]
    (the only use in the provider is the cutset ["."]): the loop
    [for len(s) > 0 && s[len(s)-1] == c { s = s[:len(s)-1] }]. *)
Fixpoint TrimRight (s : gostring) (c : ascii) : gostring :=
  match s with
  | [] => []
  | x :: t =>
      match TrimRight t c with
      | [] => if Ascii.eqb x c then [] else [x]
      | t' => x :: t'
      end
  end.

Definition flush (cur : option gostring) : list gostring :=
  match cur with Some w => [w] | None => [] end.

(** The loop of [strings.FieldsFunc(s, f)], which ranges over the runes
    of [s].  [cur] is the field being read ([None] when the loop is
    between fields); [skip] counts the bytes of the current rune that
    are still to be passed over. *)
Fixpoint FieldsFunc_loop (f : Z -> bool) (s : gostring) (skip : nat)
    (cur : option gostring) : list gostring :=
  match s with
  | [] => flush cur
  | c :: t =>
      match skip with
      | S k => FieldsFunc_loop f t k (option_map (fun w => w ++ [c]) cur)
      | O =>
          let '(r, n) := utf8.DecodeRune s in
          if f r
          then flush cur ++ FieldsFunc_loop f t (n - 1) None
          else FieldsFunc_loop f t (n - 1)
                 (Some (match cur with Some w => w ++ [c] | None => [c] end))
      end
  end.

Definition FieldsFunc (s : gostring) (f : Z -> bool) : list gostring :=
  FieldsFunc_loop f s 0 None.

(** [strings.Fields(s)] splits [s] around runs of white space.  Its
    ASCII fast path uses the table [asciiSpace], the restriction of
    [unicode.IsSpace] to bytes below 0x80, and every other input goes
    through [FieldsFunc(s, unicode.IsSpace)]. *)
Definition Fields (s : gostring) : list gostring :=
  FieldsFunc s unicode.IsSpace.

(** [strings.Cut(s, sep)] for a one-byte separator. *)
Fixpoint Cut (s : gostring) (sep : ascii) : option (gostring * gostring) :=
  match s with
  | [] => None
  | c :: t =>
      if Ascii.eqb c sep then Some ([], t)
      else match Cut t sep with
           | Some (a, b) => Some (c :: a, b)
           | None => None
           end
  end.

(** [strings.SplitN(s, sep, n)] for a one-byte separator and [n >= 0]:
    at most [n] substrings, the last one being the unsplit remainder. *)
Fixpoint SplitN (s : gostring) (sep : ascii) (n : nat) : list gostring :=
  match n with
  | O => []
  | S O => [s]
  | S n' =>
      match Cut s sep with
      | Some (a, b) => a :: SplitN b sep n'
      | None => [s]
      end
  end.

(** [strings.HasPrefix] and [strings.Contains]. *)
Fixpoint HasPrefix (s prefix : gostring) : bool :=
  match prefix, s with
  | [], _ => true
  | p :: prefix', c :: s' => Ascii.eqb c p && HasPrefix s' prefix'
  | _ :: _, [] => false
  end.

Fixpoint Contains (s substr : gostring) : bool :=
  HasPrefix s substr
  || match s with
     | [] => false
     | _ :: s' => Contains s' substr
     end.

Definition isASCII (s : gostring) : bool :=
  forallb (fun c => (byte_of c <? 0x80)%Z) s.

Definition upper_byte (c : ascii) : ascii :=
  if (byte_of "a"%char <=? byte_of c)%Z && (byte_of c <=? byte_of "z"%char)%Z
  then ascii_of_N (N_of_ascii c - 32)
  else c.

End strings.

Module strconv.

Definition is_digit (c : ascii) : bool :=
  (byte_of "0"%char <=? byte_of c)%Z && (byte_of c <=? byte_of "9"%char)%Z.

Definition digit_val (c : ascii) : N := N_of_ascii c - 48.

(** The digit loop of [strconv.ParseUint(s, 10, bitSize)]: a byte that
    is not a decimal digit is a syntax error, a value above [maxVal] a
    range error. *)
Fixpoint ParseUint_loop (maxVal : N) (s : gostring) (n : N) : option N :=
  match s with
  | [] => Some n
  | c :: t =>
      if is_digit c then
        if (2 ^ 64 / 10 + 1 <=? n)%N then None
        else
          let n1 := (n * 10 + digit_val c)%N in
          if (maxVal <? n1)%N then None else ParseUint_loop maxVal t n1
      else None
  end.

(** [strconv.ParseUint(s, 10, bitSize)]; [None] stands for a non-nil
    error. *)
Definition ParseUint (s : gostring) (bitSize : N) : option N :=
  match s with
  | [] => None
  | _ => ParseUint_loop (2 ^ bitSize - 1) s 0
  end.

Definition digit (d : N) : ascii := ascii_of_N (48 + d).

(** The loop of [formatBits] for base 10: the digits of [u] are pushed
    in front of [acc], least significant first. *)
Fixpoint formatBits (fuel : nat) (u : N) (acc : gostring) : gostring :=
  match fuel with
  | O => digit u :: acc
  | S fuel' =>
      if (u <? 10)%N then digit u :: acc
      else formatBits fuel' (u / 10) (digit (u mod 10) :: acc)
  end.

(** [strconv.FormatUint(u, 10)], the rendering of [%d] for an unsigned
    value. *)
Definition FormatUint (u : N) : gostring :=
  formatBits (N.to_nat (N.size u)) u [].

(** [strconv.FormatInt(i, 10)], the rendering of [%d] for an [int]. *)
Definition FormatInt (i : Z) : gostring :=
  if (i <? 0)%Z then "-"%char :: FormatUint (Z.to_N (- i))
  else FormatUint (Z.to_N i).

End strconv.

(** ** libdns: the provider-neutral resource record *)

Module libdns.

(** [libdns.RR]; [TTL] is a [time.Duration] in nanoseconds. *)
Record RR : Type := mkRR {
  Name : gostring;
  TTL : Z;
  Type_ : gostring;
  Data : gostring
}.

(** [libdns.SvcParams]. *)
Definition SvcParams : Type := list (gostring * list gostring).

End libdns.

(** ** The library code that stays abstract

    [net/netip], the Unicode case tables, the floating-point conversion
    behind [time.Duration.Seconds] and what the method [RR()] of libdns
    builds from several fields of a record are not part of the provider;
    the embedding is parametric in them. *)
Class Extern : Type := {
  (** [netip.Addr], [netip.ParseAddr] ([None] for a non-nil error),
      [Addr.String] and [Addr.Is6]. *)
  netip_Addr : Type;
  netip_ParseAddr : gostring -> option netip_Addr;
  netip_String : netip_Addr -> gostring;
  netip_Is6 : netip_Addr -> bool;
  (** [strings.Map(unicode.ToUpper, s)], the path [strings.ToUpper] takes
      when [s] has a byte above 0x7F. *)
  unicode_MapToUpper : gostring -> gostring;
  (** [int(d.Seconds())] for a [time.Duration] of [d] nanoseconds. *)
  Duration_Seconds_int : Z -> Z;
  (** [libdns.ServiceBinding.RR()], from the fields [Name], [Scheme],
      [URLSchemePort], [TTL], [Priority], [Target] and [Params]. *)
  ServiceBinding_RR :
    gostring -> gostring -> N -> Z -> N -> gostring -> libdns.SvcParams ->
    libdns.RR;
  (** The field [Data] of [libdns.MX.RR()], from [Preference] and
      [Target]. *)
  MX_Data : N -> gostring -> gostring;
  (** The field [Name] of [libdns.SRV.RR()], from the [Name] of a record
      without service and transport, and its field [Data], from
      [Priority], [Weight], [Port] and [Target]. *)
  SRV_Name : gostring -> gostring;
  SRV_Data : N -> N -> N -> gostring -> gostring;
  (** The field [Data] of [libdns.CAA.RR()], from [Flags], [Tag] and
      [Value]. *)
  CAA_Data : N -> gostring -> gostring -> gostring
}.

(** [strings.ToUpper]: byte-wise on ASCII-only input, rune-wise
    otherwise. *)
Definition strings_ToUpper `{Extern} (s : gostring) : gostring :=
  if strings.isASCII s then map strings.upper_byte s else unicode_MapToUpper s.

(** A Go [int64] product wraps around. *)
Definition wrap64 (z : Z) : Z := ((z + 2 ^ 63) mod 2 ^ 64 - 2 ^ 63)%Z.

Definition Second : Z := 1000000000.

(** ** client.go: the name normalizer *)

(** [fqdn] returns a fully qualified domain name. *)
Definition fqdn (name zone : gostring) : gostring :=
  let name := strings.TrimRight name dot in
  let zone := strings.TrimRight zone dot in
  let name :=
    if negb (strings.HasSuffix name zone) then name ++ [dot] ++ zone else name in
  name ++ [dot].

(** [ends_with_dot s] says that the last byte of [s] is a dot. *)
Definition ends_with_dot (s : gostring) : bool := strings.HasSuffix s [dot].

(** A byte is plain when it is ASCII and not white space: it is a rune
    of its own and belongs to a field. *)
Definition plain (c : ascii) : bool :=
  (byte_of c <? 0x80)%Z && negb (unicode.IsSpace (byte_of c)).

(** ** libdns: typed records *)

(** The record types of libdns that the provider builds or inspects; a
    value of the interface [libdns.Record] is one of them.  [Addr] is the
    type [netip.Addr].  The fields are those the provider sets: an [SRV]
    record comes without service and transport. *)
Inductive libdns_Record (Addr : Type) : Type :=
| Address (Name : gostring) (TTL : Z) (IP : Addr)
| MX (Name : gostring) (TTL : Z) (Preference : N) (Target : gostring)
| TXT (Name : gostring) (TTL : Z) (Text : gostring)
| CNAME (Name : gostring) (TTL : Z) (Target : gostring)
| NS (Name : gostring) (TTL : Z) (Target : gostring)
| SRV (Name : gostring) (TTL : Z) (Priority Weight Port : N) (Target : gostring)
| CAA (Name : gostring) (TTL : Z) (Flags : N) (Tag Value : gostring)
| ServiceBinding (Name Scheme : gostring) (URLSchemePort : N) (TTL : Z)
    (Priority : N) (Target : gostring) (Params : libdns.SvcParams)
| RR (rr : libdns.RR).
Arguments Address {Addr} Name TTL IP.
Arguments MX {Addr} Name TTL Preference Target.
Arguments TXT {Addr} Name TTL Text.
Arguments CNAME {Addr} Name TTL Target.
Arguments NS {Addr} Name TTL Target.
Arguments SRV {Addr} Name TTL Priority Weight Port Target.
Arguments CAA {Addr} Name TTL Flags Tag Value.
Arguments ServiceBinding {Addr} Name Scheme URLSchemePort TTL Priority Target Params.
Arguments RR {Addr} rr.

Definition record `{Extern} : Type := libdns_Record netip_Addr.

(** The field [Name] of a record. *)
Definition Name_of `{Extern} (r : record) : gostring :=
  match r with
  | Address name _ _ | MX name _ _ _ | TXT name _ _ | CNAME name _ _
  | NS name _ _ | SRV name _ _ _ _ _ | CAA name _ _ _ _
  | ServiceBinding name _ _ _ _ _ _ => name
  | RR rr => libdns.Name rr
  end.

(** Whether a record is an SRV record, the one whose name [RR()] does not
    simply copy. *)
Definition is_SRV `{Extern} (r : record) : bool :=
  match r with
  | SRV _ _ _ _ _ _ => true
  | _ => false
  end.

(** The method [RR()] of the libdns record types, which is library code
    outside the repository.  The TTL is copied and the type is the one of
    the variant, ["A"] or ["AAAA"] by the address family.  An address, a
    text, an alias and a name-server record keep their name and have the
    address literal, the text or the target for data.  An MX and a CAA
    record keep their name; their data, and the name and the data of an
    SRV record, are built by the library from several fields and are
    taken from [Extern]. *)
Definition RR_of `{Extern} (r : record) : libdns.RR :=
  match r with
  | Address name ttl ip =>
      libdns.mkRR name ttl (if netip_Is6 ip then str "AAAA" else str "A")
        (netip_String ip)
  | MX name ttl pref target =>
      libdns.mkRR name ttl (str "MX") (MX_Data pref target)
  | TXT name ttl text => libdns.mkRR name ttl (str "TXT") text
  | CNAME name ttl target => libdns.mkRR name ttl (str "CNAME") target
  | NS name ttl target => libdns.mkRR name ttl (str "NS") target
  | SRV name ttl prio weight port target =>
      libdns.mkRR (SRV_Name name) ttl (str "SRV")
        (SRV_Data prio weight port target)
  | CAA name ttl flags tag value =>
      libdns.mkRR name ttl (str "CAA") (CAA_Data flags tag value)
  | ServiceBinding name scheme port ttl prio target params =>
      ServiceBinding_RR name scheme port ttl prio target params
  | RR rr => rr
  end.

(** [libdns.RelativeName(fqdn, zone)] of libdns 1, library code: one
    trailing dot of each argument is ignored, the zone suffix and the dot
    before it are cut off the name, and an empty result is written ["@"],
    the zone apex, unless one of the arguments is empty. *)
Definition RelativeName (fqdn zone : gostring) : gostring :=
  let rel :=
    strings.TrimSuffix
      (strings.TrimSuffix (strings.TrimSuffix fqdn [dot])
         (strings.TrimSuffix zone [dot]))
      [dot] in
  if streq rel [] && negb (streq fqdn []) && negb (streq zone [])
  then str "@" else rel.

(** ** regfish-dnsapi-go: the provider record and the API client *)

Module rfns.

(** [rfns.Record]; [Priority] is a [*int], [None] standing for nil. *)
Record record : Type := mkRecord {
  ID : Z;
  Name : gostring;
  Type_ : gostring;
  Data : gostring;
  TTL : Z;
  Priority : option Z
}.

(** The record [rec] under the ID [id]. *)
Definition with_ID (id : Z) (rec : record) : record :=
  mkRecord id (Name rec) (Type_ rec) (Data rec) (TTL rec) (Priority rec).

(** [rfns.Client]: each call acts on the state of the provider and
    returns what the Go method returns, [None] standing for a nil
    error. *)
Class Client : Type := {
  World : Type;
  cerr : Type;
  GetRecordsByDomain : gostring -> World -> (list record * option cerr) * World;
  CreateRecord : record -> World -> (record * option cerr) * World;
  UpdateRecordById : Z -> record -> World -> (record * option cerr) * World;
  DeleteRecord : Z -> World -> option cerr * World
}.

(** The calls a provider can receive. *)
Inductive Call : Type :=
| CallGet (zone : gostring)
| CallCreate (rec : record)
| CallUpdate (id : Z) (rec : record)
| CallDelete (id : Z).

End rfns.

(** ** Errors, panics and state *)

(** The errors the provider returns: one of the client, or one built by
    [fmt.Errorf], with ([Errorf_w], the verb [%w]) or without
    ([Errorf]) a wrapped error.  [cerr] is the type of the client's
    errors. *)
Inductive error_of (cerr : Type) : Type :=
| ClientErr (e : cerr)
| Errorf (msg : gostring)
| Errorf_w (msg : gostring) (e : error_of cerr).
Arguments ClientErr {cerr} e.
Arguments Errorf {cerr} msg.
Arguments Errorf_w {cerr} msg e.

Definition error `{rfns.Client} : Type := error_of rfns.cerr.

(** The state a call of the provider runs in: the provider's own state
    and the log of the client calls made so far.  [p.init], which
    builds the client once, and the mutex are not part of it. *)
Record state (World : Type) : Type := mkSt {
  world : World;
  calls : list rfns.Call
}.
Arguments mkSt {World} world calls.
Arguments world {World} s.
Arguments calls {World} s.

(** A Go call either returns or panics. *)
Inductive res (A : Type) : Type :=
| Val (a : A)
| Panic.
Arguments Val {A} a.
Arguments Panic {A}.

Definition M (S A : Type) : Type := S -> res A * S.

Definition ret {S A : Type} (a : A) : M S A := fun s => (Val a, s).

Definition bind {S A B : Type} (m : M S A) (k : A -> M S B) : M S B :=
  fun s => match m s with
           | (Val a, s') => k a s'
           | (Panic, s') => (Panic, s')
           end.

Definition panic {S A : Type} : M S A := fun s => (Panic, s).

(** A partial operation, whose failure is a run-time panic. *)
Definition must {S A : Type} (o : option A) : M S A :=
  match o with Some a => ret a | None => panic end.

Declare Scope go_scope.
Delimit Scope go_scope with go.
Notation "x <- m ;; k" := (bind m (fun x => k))
  (at level 61, m at next level, right associativity) : go_scope.
Notation "' p <- m ;; k" := (bind m (fun x => let p := x in k))
  (at level 61, p pattern, m at next level, right associativity) : go_scope.

(** ** provider.go and client.go *)

Section Provider.

Context `{X : Extern} `{C : rfns.Client}.

Local Open Scope go_scope.

Definition St : Type := state rfns.World.

Definition log (s : St) (w : rfns.World) (c : rfns.Call) : St :=
  mkSt w (calls s ++ [c]).

Definition client_GetRecordsByDomain (zone : gostring)
    : M St (list rfns.record * option rfns.cerr) :=
  fun s => let '(r, w) := rfns.GetRecordsByDomain zone (world s) in
           (Val r, log s w (rfns.CallGet zone)).

Definition client_CreateRecord (rec : rfns.record)
    : M St (rfns.record * option rfns.cerr) :=
  fun s => let '(r, w) := rfns.CreateRecord rec (world s) in
           (Val r, log s w (rfns.CallCreate rec)).

Definition client_UpdateRecordById (id : Z) (rec : rfns.record)
    : M St (rfns.record * option rfns.cerr) :=
  fun s => let '(r, w) := rfns.UpdateRecordById id rec (world s) in
           (Val r, log s w (rfns.CallUpdate id rec)).

Definition client_DeleteRecord (id : Z) : M St (option rfns.cerr) :=
  fun s => let '(r, w) := rfns.DeleteRecord id (world s) in
           (Val r, log s w (rfns.CallDelete id)).

(** The fallback of [convertToLibdnsRecord]: a plain [libdns.RR]. *)
Definition fallback (relName : gostring) (rec : rfns.record) (ttl : Z)
    : record :=
  RR (libdns.mkRR relName ttl (rfns.Type_ rec) (rfns.Data rec)).

(** [convertToLibdnsRecord] converts a regfish record to a libdns record
    type; [None] is the panic of the slice expression
    [rec.Name[:len(rec.Name)-1]]. *)
Definition convertToLibdnsRecord (rec : rfns.record) (zone : gostring)
    : option record :=
  match slice_to (rfns.Name rec) (Z.of_nat (length (rfns.Name rec)) - 1) with
  | None => None
  | Some name' =>
      let relName := RelativeName name' zone in
      let ttl := wrap64 (rfns.TTL rec * Second) in
      let typ := strings_ToUpper (rfns.Type_ rec) in
      Some
        (if streq typ (str "A") || streq typ (str "AAAA") then
           match netip_ParseAddr (rfns.Data rec) with
           | None => fallback relName rec ttl
           | Some ip => Address relName ttl ip
           end
         else if streq typ (str "MX") then
           match strings.Fields (rfns.Data rec) with
           | [p0; p1] =>
               match strconv.ParseUint p0 16 with
               | None => fallback relName rec ttl
               | Some pref => MX relName ttl (pref mod 2 ^ 16) p1
               end
           | _ => fallback relName rec ttl
           end
         else if streq typ (str "TXT") then TXT relName ttl (rfns.Data rec)
         else if streq typ (str "CNAME") then CNAME relName ttl (rfns.Data rec)
         else if streq typ (str "NS") then NS relName ttl (rfns.Data rec)
         else if streq typ (str "SRV") then
           match strings.Fields (rfns.Data rec) with
           | [p0; p1; p2; p3] =>
               match strconv.ParseUint p0 16, strconv.ParseUint p1 16,
                     strconv.ParseUint p2 16 with
               | Some priority, Some weight, Some port =>
                   SRV relName ttl (priority mod 2 ^ 16) (weight mod 2 ^ 16)
                     (port mod 2 ^ 16) p3
               | _, _, _ => fallback relName rec ttl
               end
           | _ => fallback relName rec ttl
           end
         else if streq typ (str "CAA") then
           match strings.SplitN (rfns.Data rec) space 3 with
           | [p0; p1; p2] =>
               match strconv.ParseUint p0 8 with
               | None => fallback relName rec ttl
               | Some flags => CAA relName ttl (flags mod 2 ^ 8) p1 p2
               end
           | _ => fallback relName rec ttl
           end
         else fallback relName rec ttl)
  end.

(** [convertFromLibdnsRecord] converts a libdns record to regfish
    record. *)
Definition convertFromLibdnsRecord (r : record) (zone : gostring)
    : rfns.record :=
  let rr := RR_of r in
  let rec :=
    rfns.mkRecord 0 (fqdn (libdns.Name rr) zone) (libdns.Type_ rr)
      (libdns.Data rr) (Duration_Seconds_int (libdns.TTL rr)) None in
  match r with
  | MX _ _ pref _ =>
      rfns.mkRecord (rfns.ID rec) (rfns.Name rec) (rfns.Type_ rec)
        (rfns.Data rec) (rfns.TTL rec) (Some (Z.of_N pref))
  | SRV _ _ prio _ _ _ =>
      rfns.mkRecord (rfns.ID rec) (rfns.Name rec) (rfns.Type_ rec)
        (rfns.Data rec) (rfns.TTL rec) (Some (Z.of_N prio))
  | _ => rec
  end.

(** The record [update_rec] that [upsertRecord] builds.  In its type
    switch the case of [libdns.SRV] has an empty body (a Go case does
    not fall through), so only a service binding and an MX record get
    a priority. *)
Definition upsert_update_rec (r : record) (zone : gostring) : rfns.record :=
  let rr := RR_of r in
  let update_rec :=
    rfns.mkRecord 0 (fqdn (libdns.Name rr) zone) (libdns.Type_ rr)
      (libdns.Data rr) (Duration_Seconds_int (libdns.TTL rr)) None in
  match r with
  | SRV _ _ _ _ _ _ => update_rec
  | ServiceBinding _ _ _ _ prio _ _ =>
      rfns.mkRecord (rfns.ID update_rec) (rfns.Name update_rec)
        (rfns.Type_ update_rec) (rfns.Data update_rec) (rfns.TTL update_rec)
        (Some (Z.of_N prio))
  | MX _ _ pref _ =>
      rfns.mkRecord (rfns.ID update_rec) (rfns.Name update_rec)
        (rfns.Type_ update_rec) (rfns.Data update_rec) (rfns.TTL update_rec)
        (Some (Z.of_N pref))
  | _ => update_rec
  end.

(** The condition of the loop of [upsertRecord]: same FQDN and same
    type. *)
Definition upsert_matches (zone : gostring) (rr : libdns.RR)
    (rec : rfns.record) : bool :=
  streq (fqdn (rfns.Name rec) zone) (fqdn (libdns.Name rr) zone)
  && streq (rfns.Type_ rec) (libdns.Type_ rr).

(** The loop of [upsertRecord] and the create that follows it. *)
Fixpoint upsert_loop (zone : gostring) (rr : libdns.RR)
    (update_rec : rfns.record) (records : list rfns.record)
    : M St (option rfns.record * option rfns.cerr) :=
  match records with
  | [] =>
      '(createdRecord, err) <- client_CreateRecord update_rec ;;
      ret (Some createdRecord, err)
  | rec :: rest =>
      if upsert_matches zone rr rec then
        '(updatedRecord, err) <-
          client_UpdateRecordById (rfns.ID rec) update_rec ;;
        ret (Some updatedRecord, err)
      else upsert_loop zone rr update_rec rest
  end.

(** [upsertRecord] adds or updates a record of the zone; it returns a
    pointer to the record ([None] for nil) and an error. *)
Definition upsertRecord (r : record) (zone : gostring)
    : M St (option rfns.record * option rfns.cerr) :=
  '(records, err) <- client_GetRecordsByDomain zone ;;
  match err with
  | Some e => ret (None, Some e)
  | None =>
      upsert_loop zone (RR_of r) (upsert_update_rec r zone) records
  end.

(** What [upsertRecord] does once a candidate is chosen. *)
Definition update_with (c : rfns.record) (update_rec : rfns.record) (s : St)
    : res (option rfns.record * option rfns.cerr) * St :=
  let '((resp, err), w) :=
    rfns.UpdateRecordById (rfns.ID c) update_rec (world s) in
  (Val (Some resp, err), log s w (rfns.CallUpdate (rfns.ID c) update_rec)).

Definition create_with (update_rec : rfns.record) (s : St)
    : res (option rfns.record * option rfns.cerr) * St :=
  let '((resp, err), w) := rfns.CreateRecord update_rec (world s) in
  (Val (Some resp, err), log s w (rfns.CallCreate update_rec)).

(** *** The batch operations *)

(** What a batch operation returns: the record slice (nil being the
    empty list) and the error. *)
Definition result : Type := (list record * option error)%type.

(** The loops of the batch operations append the converted record when
    it is not nil; [convertToLibdnsRecord] returns a struct value, which
    never is. *)
Fixpoint GetRecords_loop (zone : gostring) (records : list rfns.record)
    (libdnsRecords : list record) : M St (list record) :=
  match records with
  | [] => ret libdnsRecords
  | rec :: rest =>
      r <- must (convertToLibdnsRecord rec zone) ;;
      GetRecords_loop zone rest (libdnsRecords ++ [r])
  end.

(** [GetRecords] lists all the records in the zone. *)
Definition GetRecords (zone : gostring) : M St result :=
  '(records, err) <- client_GetRecordsByDomain zone ;;
  match err with
  | Some e =>
      ret ([], Some (Errorf_w (str "failed to get records for zone " ++ zone)
                       (ClientErr e)))
  | None =>
      libdnsRecords <- GetRecords_loop zone records [] ;;
      ret (libdnsRecords, None)
  end.

Fixpoint AppendRecords_loop (zone : gostring) (records : list record)
    (createdRecords : list record) : M St result :=
  match records with
  | [] => ret (createdRecords, None)
  | r :: rest =>
      let rec := convertFromLibdnsRecord r zone in
      '(createdRec, err) <- client_CreateRecord rec ;;
      match err with
      | Some e =>
          ret ([], Some (Errorf_w
                           (str "failed to create record "
                              ++ libdns.Name (RR_of r))
                           (ClientErr e)))
      | None =>
          createdRecord <- must (convertToLibdnsRecord createdRec zone) ;;
          AppendRecords_loop zone rest (createdRecords ++ [createdRecord])
      end
  end.

(** [AppendRecords] adds records to the zone.  It returns the records
    that were added. *)
Definition AppendRecords (zone : gostring) (records : list record)
    : M St result :=
  AppendRecords_loop zone records [].

Fixpoint SetRecords_loop (zone : gostring) (records : list record)
    (updatedRecords : list record) : M St result :=
  match records with
  | [] => ret (updatedRecords, None)
  | r :: rest =>
      '(updateRec, err) <- upsertRecord r zone ;;
      match err with
      | Some e =>
          ret ([], Some (Errorf_w
                           (str "failed to update record "
                              ++ libdns.Name (RR_of r))
                           (ClientErr e)))
      | None =>
          updateRec' <- must updateRec ;;
          updatedRecord <- must (convertToLibdnsRecord updateRec' zone) ;;
          SetRecords_loop zone rest (updatedRecords ++ [updatedRecord])
      end
  end.

(** [SetRecords] sets the records in the zone, either by updating
    existing records or creating new ones.  It returns the updated
    records. *)
Definition SetRecords (zone : gostring) (records : list record)
    : M St result :=
  SetRecords_loop zone records [].

(** The condition of the inner loop of [DeleteRecords]: same FQDN,
    same type and same data. *)
Definition delete_matches (zone : gostring) (rr : libdns.RR)
    (rec : rfns.record) : bool :=
  streq (fqdn (rfns.Name rec) zone) (fqdn (libdns.Name rr) zone)
  && streq (rfns.Type_ rec) (libdns.Type_ rr)
  && streq (rfns.Data rec) (libdns.Data rr).

(** The inner loop of [DeleteRecords], which looks for the record ID:
    [rrid] starts at 0 and takes the ID of the first record that
    matches. *)
Fixpoint find_rrid (zone : gostring) (rr : libdns.RR)
    (all_records : list rfns.record) : Z :=
  match all_records with
  | [] => 0
  | rec :: rest =>
      if delete_matches zone rr rec then rfns.ID rec
      else find_rrid zone rr rest
  end.

Definition not_found_msg (rr : libdns.RR) : gostring :=
  str "record " ++ libdns.Name rr ++ str " of type " ++ libdns.Type_ rr
    ++ str " with data " ++ libdns.Data rr ++ str " not found".

Fixpoint DeleteRecords_loop (zone : gostring)
    (all_records : list rfns.record) (records : list record)
    (deletedRecords : list record) : M St result :=
  match records with
  | [] => ret (deletedRecords, None)
  | r :: rest =>
      let rr := RR_of r in
      let rrid := find_rrid zone rr all_records in
      if (rrid =? 0)%Z then ret ([], Some (Errorf (not_found_msg rr)))
      else
        err <- client_DeleteRecord rrid ;;
        match err with
        | Some e =>
            ret ([], Some (Errorf_w
                             (str "failed to delete record ID "
                                ++ strconv.FormatInt rrid)
                             (ClientErr e)))
        | None =>
            DeleteRecords_loop zone all_records rest (deletedRecords ++ [r])
        end
  end.

(** The step of [DeleteRecords] for one input record whose match has
    the ID [id]: the provider's delete, then the rest of the batch. *)
Definition delete_step (zone : gostring) (all : list rfns.record)
    (r : record) (rest acc : list record) (id : Z) (s : St)
    : res result * St :=
  let '(err, w) := rfns.DeleteRecord id (world s) in
  let s' := log s w (rfns.CallDelete id) in
  match err with
  | Some e =>
      (Val ([], Some (Errorf_w
                        (str "failed to delete record ID "
                           ++ strconv.FormatInt id)
                        (ClientErr e))), s')
  | None => DeleteRecords_loop zone all rest (acc ++ [r]) s'
  end.

(** [DeleteRecords] deletes the records from the zone.  It returns the
    records that were deleted. *)
Definition DeleteRecords (zone : gostring) (records : list record)
    : M St result :=
  '(all_records, err) <- client_GetRecordsByDomain zone ;;
  match err with
  | Some e =>
      ret ([], Some (Errorf_w (str "failed to get records for zone " ++ zone)
                       (ClientErr e)))
  | None => DeleteRecords_loop zone all_records records []
  end.

End Provider.

(** ** The earlier revision of the matcher

    The first revision of [client.go] and [provider.go] worked on the
    flat [libdns.Record] of libdns 0.2, which carried the provider's ID
    as a string. *)
Module Legacy.

Record record : Type := mkRecord {
  ID : gostring;
  Type_ : gostring;
  Name : gostring;
  Value : gostring;
  TTL : Z;
  Priority : Z
}.

(** [libdns.RelativeName(fqdn, zone)] of libdns 0.2, library code: the
    zone is cut off the end of the name, and then one trailing dot. *)
Definition RelativeName (fqdn zone : gostring) : gostring :=
  strings.TrimSuffix (strings.TrimSuffix fqdn zone) [dot].

(** The condition of the loop of the earlier [upsertRecord]. *)
Definition upsert_matches (zone : gostring) (r : record)
    (rec : rfns.record) : bool :=
  streq (strconv.FormatInt (rfns.ID rec)) (ID r)
  || (streq (fqdn (rfns.Name rec) zone) (fqdn (Name r) zone)
      && streq (rfns.Type_ rec) (Type_ r)).

(** The condition of the inner loop of the earlier [DeleteRecords]. *)
Definition delete_matches (zone : gostring) (r : record)
    (rec : rfns.record) : bool :=
  streq (strconv.FormatInt (rfns.ID rec)) (ID r)
  || (streq (fqdn (rfns.Name rec) zone) (fqdn (Name r) zone)
      && streq (rfns.Type_ rec) (Type_ r)
      && streq (rfns.Data rec) (Value r)).

End Legacy.

(** ** Well-formed and malformed data *)

Module spec.

(** A field that is not a decimal number: empty, or with a byte that is
    not a digit. *)
Definition non_numeric (s : gostring) : Prop :=
  s = [] \/ existsb (fun c => negb (strconv.is_digit c)) s = true.

(** The data of a provider record is malformed for its upper-cased
    type: an address that does not parse, a wrong number of fields, or
    a numeric field that is not a number.  The fields of a CAA record
    are the parts of [strings.SplitN(data, " ", 3)]; those of MX and
    SRV are the white-space fields. *)
Inductive Malformed `{Extern} : gostring -> gostring -> Prop :=
| Mal_A data :
    netip_ParseAddr data = None -> Malformed (str "A") data
| Mal_AAAA data :
    netip_ParseAddr data = None -> Malformed (str "AAAA") data
| Mal_MX_count data :
    length (strings.Fields data) <> 2%nat -> Malformed (str "MX") data
| Mal_MX_number data p0 p1 :
    strings.Fields data = [p0; p1] -> non_numeric p0 ->
    Malformed (str "MX") data
| Mal_SRV_count data :
    length (strings.Fields data) <> 4%nat -> Malformed (str "SRV") data
| Mal_SRV_number data p0 p1 p2 p3 :
    strings.Fields data = [p0; p1; p2; p3] ->
    non_numeric p0 \/ non_numeric p1 \/ non_numeric p2 ->
    Malformed (str "SRV") data
| Mal_CAA_count data :
    length (strings.SplitN data space 3) <> 3%nat ->
    Malformed (str "CAA") data
| Mal_CAA_number data p0 p1 p2 :
    strings.SplitN data space 3 = [p0; p1; p2] -> non_numeric p0 ->
    Malformed (str "CAA") data.

(** A zone-relative name that survives the trip through [fqdn] and
    back: not empty, without a trailing dot, and not ending with the
    zone, the zone being written with at most one trailing dot. *)
Definition name_ok (name zone : gostring) : Prop :=
  name <> [] /\ ends_with_dot name = false /\
  strings.HasSuffix name (strings.TrimRight zone dot) = false /\
  strings.TrimSuffix zone [dot] = strings.TrimRight zone dot.

(** A TTL of whole seconds that fits a [time.Duration]. *)
Definition ttl_ok (ttl : Z) : Prop :=
  exists k : Z, ttl = (k * Second)%Z /\ (- 2 ^ 63 <= ttl < 2 ^ 63)%Z.

(** A domain string that is one white-space field. *)
Definition one_field (s : gostring) : Prop := strings.Fields s = [s].

(** The typed records of the decode table whose fields fit the grammar
    of their type. *)
Definition well_formed `{Extern} (r : record) (zone : gostring) : Prop :=
  match r with
  | Address name ttl ip =>
      name_ok name zone /\ ttl_ok ttl /\
      netip_ParseAddr (netip_String ip) = Some ip
  | MX name ttl pref target =>
      name_ok name zone /\ ttl_ok ttl /\ (pref < 2 ^ 16)%N /\ one_field target
  | TXT name ttl _ | CNAME name ttl _ | NS name ttl _ =>
      name_ok name zone /\ ttl_ok ttl
  | SRV name ttl prio weight port target =>
      name_ok name zone /\ ttl_ok ttl /\
      (prio < 2 ^ 16)%N /\ (weight < 2 ^ 16)%N /\ (port < 2 ^ 16)%N /\
      one_field target
  | CAA name ttl flags tag _ =>
      name_ok name zone /\ ttl_ok ttl /\ (flags < 2 ^ 8)%N /\
      strings.Cut tag space = None
  | ServiceBinding _ _ _ _ _ _ _ | RR _ => False
  end.

(** Modelled from the spec: the data string that the decode table reads
    back into the fields of a record, the numbers in decimal and the
    fields separated by one space. *)
Definition table_data `{Extern} (r : record) : gostring :=
  match r with
  | Address _ _ ip => netip_String ip
  | MX _ _ pref target => strconv.FormatUint pref ++ [space] ++ target
  | TXT _ _ text => text
  | CNAME _ _ target | NS _ _ target => target
  | SRV _ _ prio weight port target =>
      strconv.FormatUint prio ++ [space] ++ strconv.FormatUint weight
        ++ [space] ++ strconv.FormatUint port ++ [space] ++ target
  | CAA _ _ flags tag value =>
      strconv.FormatUint flags ++ [space] ++ tag ++ [space] ++ value
  | ServiceBinding _ _ _ _ _ _ _ | RR _ => libdns.Data (RR_of r)
  end.

(** [RR()] renders a record plainly when it keeps the name and writes
    the data of the decode table.  It does so for an address, a text, an
    alias and a name-server record; for an MX, an SRV and a CAA record
    this is a condition on the library. *)
Definition rendered `{Extern} (r : record) : Prop :=
  libdns.Name (RR_of r) = Name_of r /\ libdns.Data (RR_of r) = table_data r.

(** What the conversion of a whole number of seconds must give. *)
Definition Seconds_exact `{Extern} : Prop :=
  forall k : Z, (- 2 ^ 63 <= k * Second < 2 ^ 63)%Z ->
                Duration_Seconds_int (k * Second) = k.

End spec.

(** ** An instance to run the definitions on

    IPv4 dotted quads stand for [net/netip], durations are cut to whole
    seconds, and the provider is a list of records in memory that hands
    out increasing IDs and can be told to refuse a name or an ID.  The
    records are rendered the way libdns 1.1 renders them: an MX, an SRV
    or a CAA record whose own fields are all zero has no data, the others
    have their fields in decimal separated by one space, the value of a
    CAA record in the quoted form of the verb [%q]; an SRV record without
    service and transport has its name less a final [.@]. *)
Module Sim.

Definition dquote : ascii := ascii_of_N 34.

Definition backslash : ascii := ascii_of_N 92.

Definition hex_digit (d : N) : ascii :=
  if (d <? 10)%N then ascii_of_N (48 + d) else ascii_of_N (87 + d).

(** What [strconv.Quote] writes for one byte of an ASCII string; a byte
    above 0x7F is written as the byte of an invalid encoding is. *)
Definition quote_byte (c : ascii) : gostring :=
  let b := N_of_ascii c in
  if (b =? 34)%N then [backslash; dquote]
  else if (b =? 92)%N then [backslash; backslash]
  else if (32 <=? b)%N && (b <? 127)%N then [c]
  else if (b =? 7)%N then backslash :: str "a"
  else if (b =? 8)%N then backslash :: str "b"
  else if (b =? 12)%N then backslash :: str "f"
  else if (b =? 10)%N then backslash :: str "n"
  else if (b =? 13)%N then backslash :: str "r"
  else if (b =? 9)%N then backslash :: str "t"
  else if (b =? 11)%N then backslash :: str "v"
  else backslash :: str "x" ++ [hex_digit (b / 16); hex_digit (b mod 16)].

Definition Quote (s : gostring) : gostring :=
  [dquote] ++ flat_map quote_byte s ++ [dquote].

Definition mx_data (pref : N) (target : gostring) : gostring :=
  if (pref =? 0)%N && streq target [] then []
  else strconv.FormatUint pref ++ [space] ++ target.

Definition srv_data (prio weight port : N) (target : gostring) : gostring :=
  if (prio =? 0)%N && (weight =? 0)%N && (port =? 0)%N && streq target []
  then []
  else strconv.FormatUint prio ++ [space] ++ strconv.FormatUint weight
         ++ [space] ++ strconv.FormatUint port ++ [space] ++ target.

Definition caa_data (flags : N) (tag value : gostring) : gostring :=
  if (flags =? 0)%N && streq tag [] && streq value [] then []
  else strconv.FormatUint flags ++ [space] ++ tag ++ [space] ++ Quote value.

Definition octet (s : gostring) : option N :=
  match s with
  | "0"%char :: _ :: _ => None
  | _ => strconv.ParseUint s 8
  end.

Definition addr_Parse (s : gostring) : option (N * N * N * N) :=
  match strings.SplitN s dot 5 with
  | [a; b; c; d] =>
      match octet a, octet b, octet c, octet d with
      | Some a, Some b, Some c, Some d => Some (a, b, c, d)
      | _, _, _, _ => None
      end
  | _ => None
  end.

Definition addr_String (ip : N * N * N * N) : gostring :=
  let '(a, b, c, d) := ip in
  strconv.FormatUint a ++ [dot] ++ strconv.FormatUint b ++ [dot]
    ++ strconv.FormatUint c ++ [dot] ++ strconv.FormatUint d.

#[export] Instance extern : Extern := {|
  netip_Addr := N * N * N * N;
  netip_ParseAddr := addr_Parse;
  netip_String := addr_String;
  netip_Is6 := fun _ => false;
  unicode_MapToUpper := fun s => s;
  Duration_Seconds_int := fun d => Z.quot d Second;
  ServiceBinding_RR := fun name scheme port ttl prio target params =>
    libdns.mkRR name ttl (str "SVCB")
      (strconv.FormatUint prio ++ [space] ++ target);
  MX_Data := mx_data;
  SRV_Name := fun name => strings.TrimSuffix name (str ".@");
  SRV_Data := srv_data;
  CAA_Data := caa_data
|}.

Record provider : Type := mkProvider {
  db : list rfns.record;
  next : Z;
  refused_names : list gostring;
  refused_ids : list Z
}.

Definition refused (w : provider) (name : gostring) : bool :=
  existsb (streq name) (refused_names w).

Definition create (rec : rfns.record) (w : provider)
    : (rfns.record * option gostring) * provider :=
  if refused w (rfns.Name rec) then ((rec, Some (str "refused")), w)
  else
    let r := rfns.with_ID (next w) rec in
    ((r, None),
     mkProvider (db w ++ [r]) (next w + 1) (refused_names w) (refused_ids w)).

Definition update (id : Z) (rec : rfns.record) (w : provider)
    : (rfns.record * option gostring) * provider :=
  if refused w (rfns.Name rec) then ((rec, Some (str "refused")), w)
  else if existsb (fun r => (rfns.ID r =? id)%Z) (db w) then
    let r := rfns.with_ID id rec in
    ((r, None),
     mkProvider (map (fun x => if (rfns.ID x =? id)%Z then r else x) (db w))
       (next w) (refused_names w) (refused_ids w))
  else ((rec, Some (str "not found")), w).

Definition delete (id : Z) (w : provider) : option gostring * provider :=
  if existsb (Z.eqb id) (refused_ids w) then (Some (str "refused"), w)
  else if existsb (fun r => (rfns.ID r =? id)%Z) (db w) then
    (None,
     mkProvider (filter (fun x => negb (rfns.ID x =? id)%Z) (db w))
       (next w) (refused_names w) (refused_ids w))
  else (Some (str "not found"), w).

#[export] Instance client : rfns.Client := {|
  rfns.World := provider;
  rfns.cerr := gostring;
  rfns.GetRecordsByDomain := fun _ w => ((db w, None), w);
  rfns.CreateRecord := create;
  rfns.UpdateRecordById := update;
  rfns.DeleteRecord := delete
|}.

Definition zone : gostring := str "example.com".

Definition start (w : provider) : St := mkSt w [].

Definition seconds (n : Z) : Z := (n * Second)%Z.

(** A zone with a TXT record and two A records of one name. *)
Definition rec_mail : rfns.record :=
  rfns.mkRecord 2 (str "mail.example.com.") (str "TXT") (str "v=spf1 -all")
    300 None.

Definition rec_www1 : rfns.record :=
  rfns.mkRecord 1 (str "www.example.com.") (str "A") (str "10.0.0.1")
    300 None.

Definition rec_www3 : rfns.record :=
  rfns.mkRecord 3 (str "www.example.com.") (str "A") (str "10.0.0.2")
    300 None.

(** The provider refuses the name [bad.example.com.] and the deletion
    of record 2. *)
Definition w0 : provider :=
  mkProvider [rec_mail; rec_www1; rec_www3] 4 [str "bad.example.com."] [2%Z].

Definition empty : provider := mkProvider [] 1 [] [].

Definition txt (name text : string) : record :=
  TXT (str name) (seconds 300) (str text).

Definition www1 : record := Address (str "www") (seconds 300) (10, 0, 0, 1)%N.

Definition www2 : record := Address (str "www") (seconds 300) (10, 0, 0, 2)%N.

Definition mx : record :=
  MX (str "host") (seconds 300) 10 (str "mail.example.com").

Definition srv : record :=
  SRV (str "_sip._tcp") (seconds 300) 10 20 5060 (str "sip.example.com").

Definition caa : record :=
  CAA (str "host") (seconds 300) 0 (str "issue") (str "letsencrypt.org").

(** The value of [caa] as [%q] writes it. *)
Definition quoted_value : gostring :=
  [dquote] ++ str "letsencrypt.org" ++ [dquote].

End Sim.

(** ** The calls of a batch *)

(** A call that [SetRecords] may make for the records [records]: a fetch
    of the zone, or an update or a create of the provider record of one of
    them. *)
Definition set_call `{Extern} (zone : gostring) (records : list record)
    (c : rfns.Call) : Prop :=
  match c with
  | rfns.CallGet z => z = zone
  | rfns.CallCreate rec | rfns.CallUpdate _ rec =>
      exists r, In r records /\ rec = upsert_update_rec r zone
  | rfns.CallDelete _ => False
  end.

(** The record of [all] that [DeleteRecords] picks for [r]: a match with
    a non-zero ID. *)
Definition picked `{Extern} (zone : gostring) (all : list rfns.record)
    (r : record) : Prop :=
  exists c, In c all /\ delete_matches zone (RR_of r) c = true
            /\ find_rrid zone (RR_of r) all = rfns.ID c /\ rfns.ID c <> 0%Z.

(** ** The earlier revision of the provider

    [GetRecords], [upsertRecord] and [DeleteRecords] as they were on the
    flat [libdns.Record], with the helper [getPriority]. *)
Module LegacyProvider.

Section Ops.

Context `{X : Extern} `{C : rfns.Client}.

Local Open Scope go_scope.

(** [getPriority] returns the priority of a record and 0 if it is nil. *)
Definition getPriority (prio : option Z) : Z :=
  match prio with
  | Some p => p
  | None => 0%Z
  end.

(** The [libdns.Record] that the loop of [GetRecords] builds from a
    fetched record; [None] is the panic of [rec.Name[:len(rec.Name)-1]]. *)
Definition listed (rec : rfns.record) (zone : gostring) : option Legacy.record :=
  match slice_to (rfns.Name rec) (Z.of_nat (length (rfns.Name rec)) - 1) with
  | None => None
  | Some name' =>
      Some (Legacy.mkRecord
              (strconv.FormatInt (rfns.ID rec))
              (rfns.Type_ rec)
              (Legacy.RelativeName name' zone)
              (rfns.Data rec)
              (wrap64 (rfns.TTL rec * Second))
              (getPriority (rfns.Priority rec)))
  end.

Fixpoint GetRecords_loop (zone : gostring) (records : list rfns.record)
    (libdnsRecords : list Legacy.record) : M St (list Legacy.record) :=
  match records with
  | [] => ret libdnsRecords
  | rec :: rest =>
      r <- must (listed rec zone) ;;
      GetRecords_loop zone rest (libdnsRecords ++ [r])
  end.

(** [GetRecords] lists all the records in the zone. *)
Definition GetRecords (zone : gostring)
    : M St (list Legacy.record * option error) :=
  '(records, err) <- client_GetRecordsByDomain zone ;;
  match err with
  | Some e =>
      ret ([], Some (Errorf_w (str "failed to get records for zone " ++ zone)
                       (ClientErr e)))
  | None =>
      libdnsRecords <- GetRecords_loop zone records [] ;;
      ret (libdnsRecords, None)
  end.

(** The record [update_rec] of [upsertRecord]; the priority is always
    set, to the address of the record's [Priority]. *)
Definition update_rec (record : Legacy.record) (zone : gostring) : rfns.record :=
  rfns.mkRecord 0 (fqdn (Legacy.Name record) zone) (Legacy.Type_ record)
    (Legacy.Value record) (Duration_Seconds_int (Legacy.TTL record))
    (Some (Legacy.Priority record)).

Fixpoint upsert_loop (zone : gostring) (record : Legacy.record)
    (records : list rfns.record)
    : M St (option rfns.record * option rfns.cerr) :=
  match records with
  | [] =>
      '(createdRecord, err) <- client_CreateRecord (update_rec record zone) ;;
      ret (Some createdRecord, err)
  | rec :: rest =>
      if Legacy.upsert_matches zone record rec then
        '(updatedRecord, err) <-
          client_UpdateRecordById (rfns.ID rec) (update_rec record zone) ;;
        ret (Some updatedRecord, err)
      else upsert_loop zone record rest
  end.

(** [upsertRecord] adds or updates a record of the zone. *)
Definition upsertRecord (record : Legacy.record) (zone : gostring)
    : M St (option rfns.record * option rfns.cerr) :=
  '(records, err) <- client_GetRecordsByDomain zone ;;
  match err with
  | Some e => ret (None, Some e)
  | None => upsert_loop zone record records
  end.

(** The inner loop of [DeleteRecords]. *)
Fixpoint find_rrid (zone : gostring) (record : Legacy.record)
    (all_records : list rfns.record) : Z :=
  match all_records with
  | [] => 0
  | rec :: rest =>
      if Legacy.delete_matches zone record rec then rfns.ID rec
      else find_rrid zone record rest
  end.

Fixpoint DeleteRecords_loop (zone : gostring)
    (all_records : list rfns.record) (records : list Legacy.record)
    (deletedRecords : list Legacy.record)
    : M St (list Legacy.record * option error) :=
  match records with
  | [] => ret (deletedRecords, None)
  | record :: rest =>
      let rrid := find_rrid zone record all_records in
      if (rrid =? 0)%Z then
        ret ([], Some (Errorf
                         (str "record " ++ Legacy.Name record
                            ++ str " of type " ++ Legacy.Type_ record
                            ++ str " with data " ++ Legacy.Value record
                            ++ str " not found")))
      else
        err <- client_DeleteRecord rrid ;;
        match err with
        | Some e =>
            ret ([], Some (Errorf_w
                             (str "failed to delete record ID "
                                ++ strconv.FormatInt rrid)
                             (ClientErr e)))
        | None =>
            DeleteRecords_loop zone all_records rest (deletedRecords ++ [record])
        end
  end.

(** [DeleteRecords] deletes the records from the zone. *)
Definition DeleteRecords (zone : gostring) (records : list Legacy.record)
    : M St (list Legacy.record * option error) :=
  '(all_records, err) <- client_GetRecordsByDomain zone ;;
  match err with
  | Some e =>
      ret ([], Some (Errorf_w (str "failed to get records for zone " ++ zone)
                       (ClientErr e)))
  | None => DeleteRecords_loop zone all_records records []
  end.

End Ops.

End LegacyProvider.

(** ** Facts about Go strings *)

Lemma streq_refl (a : gostring) : streq a a = true.
Proof.
  induction a as [|x a IH]; simpl; [reflexivity|].
  now rewrite Ascii.eqb_refl, IH.
Qed.

Lemma streq_eq (a b : gostring) : streq a b = true <-> a = b.
Proof.
  split.
  - revert b; induction a as [|x a IH]; intros [|y b]; simpl; try discriminate; auto.
    intros H. apply andb_true_iff in H as [Hxy Hab].
    apply Ascii.eqb_eq in Hxy. f_equal; auto.
  - intros ->. apply streq_refl.
Qed.

Lemma streq_neq (a b : gostring) : streq a b = false <-> a <> b.
Proof.
  split.
  - intros H E. apply streq_eq in E. congruence.
  - intros H. destruct (streq a b) eqn:E; auto. apply streq_eq in E. contradiction.
Qed.

Lemma HasSuffix_iff (s suffix : gostring) :
  strings.HasSuffix s suffix = true <-> exists p, s = p ++ suffix.
Proof.
  unfold strings.HasSuffix. split.
  - intros H. apply andb_true_iff in H as [Hlen Heq].
    apply streq_eq in Heq.
    exists (firstn (length s - length suffix) s).
    rewrite <- (firstn_skipn (length s - length suffix) s) at 1.
    now rewrite Heq.
  - intros [p ->]. rewrite length_app.
    apply andb_true_iff. split.
    + apply Nat.leb_le. lia.
    + replace (length p + length suffix - length suffix)%nat with (length p) by lia.
      rewrite skipn_app, Nat.sub_diag, skipn_all. simpl. apply streq_refl.
Qed.

Lemma HasSuffix_app (p suffix : gostring) :
  strings.HasSuffix (p ++ suffix) suffix = true.
Proof. apply HasSuffix_iff. now exists p. Qed.

Lemma HasSuffix_nil (s : gostring) : strings.HasSuffix s [] = true.
Proof. apply HasSuffix_iff. exists s. now rewrite app_nil_r. Qed.

Lemma TrimSuffix_app (p suffix : gostring) :
  strings.TrimSuffix (p ++ suffix) suffix = p.
Proof.
  unfold strings.TrimSuffix. rewrite HasSuffix_app, length_app.
  replace (length p + length suffix - length suffix)%nat with (length p) by lia.
  rewrite firstn_app, Nat.sub_diag, firstn_all. simpl. apply app_nil_r.
Qed.

Lemma ends_with_dot_snoc (s : gostring) (c : ascii) :
  ends_with_dot (s ++ [c]) = Ascii.eqb c dot.
Proof.
  destruct (Ascii.eqb c dot) eqn:E.
  - apply Ascii.eqb_eq in E. subst. apply HasSuffix_app.
  - destruct (ends_with_dot (s ++ [c])) eqn:F; auto.
    apply HasSuffix_iff in F as [p F]. apply app_inj_tail in F as [_ F].
    subst. now rewrite Ascii.eqb_refl in E.
Qed.

Lemma ends_with_dot_cons (x : ascii) (s : gostring) :
  s <> [] -> ends_with_dot (x :: s) = ends_with_dot s.
Proof.
  intros Hs. destruct (exists_last Hs) as [p [c ->]].
  change (x :: p ++ [c]) with ((x :: p) ++ [c]).
  now rewrite !ends_with_dot_snoc.
Qed.

Lemma TrimRight_no_dot (s : gostring) :
  ends_with_dot (strings.TrimRight s dot) = false.
Proof.
  induction s as [|x t IH]; simpl; [reflexivity|].
  destruct (strings.TrimRight t dot) as [|y t'] eqn:E.
  - destruct (Ascii.eqb x dot) eqn:F; [reflexivity|].
    change [x] with ([] ++ [x]). now rewrite ends_with_dot_snoc.
  - rewrite ends_with_dot_cons; [exact IH | discriminate].
Qed.

Lemma TrimRight_fix (s : gostring) :
  ends_with_dot s = false -> strings.TrimRight s dot = s.
Proof.
  induction s as [|x t IH]; simpl; [reflexivity|].
  intros H. destruct t as [|y t'].
  - simpl. change [x] with ([] ++ [x]) in H. rewrite ends_with_dot_snoc in H.
    now rewrite H.
  - rewrite ends_with_dot_cons in H by discriminate.
    rewrite (IH H). reflexivity.
Qed.

Lemma TrimRight_snoc_dot (s : gostring) :
  strings.TrimRight (s ++ [dot]) dot = strings.TrimRight s dot.
Proof.
  induction s as [|x t IH]; simpl; [reflexivity|].
  now rewrite IH.
Qed.

Lemma TrimRight_strips (s : gostring) :
  exists k, s = strings.TrimRight s dot ++ repeat dot k.
Proof.
  induction s as [|x t [k IH]]; simpl.
  - now exists 0%nat.
  - destruct (strings.TrimRight t dot) as [|y t'] eqn:E.
    + destruct (Ascii.eqb x dot) eqn:F.
      * apply Ascii.eqb_eq in F. subst x. exists (S k). simpl in *. now f_equal.
      * exists k. simpl in *. now f_equal.
    + exists k. simpl. now f_equal.
Qed.

(** ** The name normalizer *)

(** C9: [fqdn] strips every trailing dot of the name and of the zone,
    appends ["." ++ zone] exactly when the stripped name does not end
    with the stripped zone, returns a string that ends in exactly one
    dot, and is idempotent: [fqdn (fqdn n z) z = fqdn n z]. *)
Theorem fqdn_normalizes (name zone : gostring) :
  let n := strings.TrimRight name dot in
  let z := strings.TrimRight zone dot in
  (exists k, name = n ++ repeat dot k) /\ ends_with_dot n = false /\
  (exists k, zone = z ++ repeat dot k) /\ ends_with_dot z = false /\
  fqdn name zone
    = (if strings.HasSuffix n z then n else n ++ [dot] ++ z) ++ [dot] /\
  (exists m, fqdn name zone = m ++ [dot] /\ ends_with_dot m = false) /\
  fqdn (fqdn name zone) zone = fqdn name zone.
Proof.
  intros n z.
  assert (Hn : ends_with_dot n = false) by apply TrimRight_no_dot.
  assert (Hz : ends_with_dot z = false) by apply TrimRight_no_dot.
  assert (Hf : fqdn name zone
               = (if strings.HasSuffix n z then n else n ++ [dot] ++ z) ++ [dot]).
  { unfold fqdn. fold n z. now destruct (strings.HasSuffix n z). }
  rewrite Hf. unfold fqdn. cbv zeta. fold z.
  destruct (strings.HasSuffix n z) eqn:E.
  - repeat split; auto using TrimRight_strips.
    + now exists n.
    + rewrite TrimRight_snoc_dot, (TrimRight_fix _ Hn), E. reflexivity.
  - assert (Hm : ends_with_dot (n ++ [dot] ++ z) = false).
    { destruct z as [|c z'].
      - now rewrite HasSuffix_nil in E.
      - destruct (@exists_last _ (c :: z')) as [p [d Hp]]; [discriminate|].
        rewrite Hp in *. rewrite ends_with_dot_snoc in Hz.
        replace (n ++ [dot] ++ p ++ [d]) with ((n ++ [dot] ++ p) ++ [d])
          by now rewrite <- !app_assoc.
        now rewrite ends_with_dot_snoc. }
    repeat split; auto using TrimRight_strips.
    + now exists (n ++ [dot] ++ z).
    + rewrite TrimRight_snoc_dot, (TrimRight_fix _ Hm).
      replace (n ++ [dot] ++ z) with ((n ++ [dot]) ++ z) by now rewrite <- app_assoc.
      now rewrite HasSuffix_app.
Qed.

(** ** Facts about the library functions *)

Lemma slice_to_snoc (s : gostring) (c : ascii) :
  slice_to (s ++ [c]) (Z.of_nat (length (s ++ [c])) - 1) = Some s.
Proof.
  unfold slice_to. rewrite length_app. simpl.
  replace (Z.of_nat (length s + 1) - 1)%Z with (Z.of_nat (length s)) by lia.
  replace ((0 <=? Z.of_nat (length s))%Z
           && (Z.of_nat (length s) <=? Z.of_nat (length s + 1))%Z) with true
    by (symmetry; apply andb_true_iff; split; apply Z.leb_le; lia).
  rewrite Nat2Z.id, firstn_app, Nat.sub_diag, firstn_all. simpl.
  now rewrite app_nil_r.
Qed.

Lemma slice_to_last_none (s : gostring) :
  slice_to s (Z.of_nat (length s) - 1) = None <-> s = [].
Proof.
  split.
  - destruct s as [|c s]; [reflexivity|].
    destruct (@exists_last _ (c :: s)) as [p [d Hp]]; [discriminate|].
    rewrite Hp, slice_to_snoc. discriminate.
  - intros ->. reflexivity.
Qed.

Lemma FieldsFunc_loop_plain (c : ascii) (t : gostring) (cur : option gostring) :
  plain c = true ->
  strings.FieldsFunc_loop unicode.IsSpace (c :: t) 0 cur
  = strings.FieldsFunc_loop unicode.IsSpace t 0
      (Some (match cur with Some w => w ++ [c] | None => [c] end)).
Proof.
  intros H. apply andb_true_iff in H as [Ha Hs].
  apply negb_true_iff in Hs.
  cbn [strings.FieldsFunc_loop utf8.DecodeRune].
  now rewrite Ha, Hs.
Qed.

Lemma FieldsFunc_loop_word (w t u : gostring) :
  forallb plain w = true ->
  strings.FieldsFunc_loop unicode.IsSpace (w ++ t) 0 (Some u)
  = strings.FieldsFunc_loop unicode.IsSpace t 0 (Some (u ++ w)).
Proof.
  revert u. induction w as [|c w IH]; intros u H.
  - now rewrite app_nil_r.
  - simpl in H. apply andb_true_iff in H as [Hc Hw].
    simpl app. rewrite FieldsFunc_loop_plain by exact Hc.
    rewrite IH by exact Hw. now rewrite <- app_assoc.
Qed.

Lemma FieldsFunc_loop_space (t : gostring) (cur : option gostring) :
  strings.FieldsFunc_loop unicode.IsSpace (space :: t) 0 cur
  = strings.flush cur ++ strings.FieldsFunc_loop unicode.IsSpace t 0 None.
Proof. reflexivity. Qed.

(** A word of plain bytes followed by a space is the first field. *)
Lemma Fields_word_space (w t : gostring) :
  w <> [] -> forallb plain w = true ->
  strings.Fields (w ++ [space] ++ t) = w :: strings.Fields t.
Proof.
  intros Hne Hw. destruct w as [|c w]; [contradiction|].
  simpl in Hw. apply andb_true_iff in Hw as [Hc Hw].
  unfold strings.Fields, strings.FieldsFunc. simpl app.
  rewrite FieldsFunc_loop_plain by exact Hc.
  rewrite FieldsFunc_loop_word by exact Hw.
  now rewrite FieldsFunc_loop_space.
Qed.

Lemma Cut_none_app (a b : gostring) (sep : ascii) :
  strings.Cut a sep = None -> strings.Cut (a ++ [sep] ++ b) sep = Some (a, b).
Proof.
  induction a as [|c a IH]; simpl.
  - now rewrite Ascii.eqb_refl.
  - destruct (Ascii.eqb c sep); [discriminate|].
    destruct (strings.Cut a sep) as [[x y]|]; [discriminate|].
    intros _. simpl in IH. now rewrite IH.
Qed.

Lemma Cut_plain (w : gostring) :
  forallb plain w = true -> strings.Cut w space = None.
Proof.
  induction w as [|c w IH]; simpl; [reflexivity|].
  intros H. apply andb_true_iff in H as [Hc Hw].
  destruct (Ascii.eqb c space) eqn:E.
  - apply Ascii.eqb_eq in E. subst c. discriminate.
  - now rewrite IH.
Qed.

Lemma is_digit_plain (c : ascii) : strconv.is_digit c = true -> plain c = true.
Proof.
  destruct c as [[] [] [] [] [] [] [] []]; intros H;
    solve [discriminate H | reflexivity].
Qed.

Lemma is_digit_digit (d : N) : (d < 10)%N -> strconv.is_digit (strconv.digit d) = true.
Proof.
  intros H.
  assert (E : (d = 0 \/ d = 1 \/ d = 2 \/ d = 3 \/ d = 4 \/ d = 5 \/ d = 6
               \/ d = 7 \/ d = 8 \/ d = 9)%N) by lia.
  repeat destruct E as [-> | E]; try reflexivity. now subst.
Qed.

Lemma digit_val_digit (d : N) : (d < 10)%N -> strconv.digit_val (strconv.digit d) = d.
Proof.
  intros H.
  assert (E : (d = 0 \/ d = 1 \/ d = 2 \/ d = 3 \/ d = 4 \/ d = 5 \/ d = 6
               \/ d = 7 \/ d = 8 \/ d = 9)%N) by lia.
  repeat destruct E as [-> | E]; try reflexivity. now subst.
Qed.

Lemma formatBits_digits (fuel : nat) (u : N) (acc : gostring) :
  (u < 2 ^ N.of_nat fuel)%N -> forallb strconv.is_digit acc = true ->
  forallb strconv.is_digit (strconv.formatBits fuel u acc) = true.
Proof.
  revert u acc. induction fuel as [|fuel IH]; intros u acc Hu Hacc.
  - simpl in *. rewrite is_digit_digit by lia. exact Hacc.
  - cbn [strconv.formatBits]. destruct (u <? 10)%N eqn:E.
    + apply N.ltb_lt in E. simpl. now rewrite is_digit_digit.
    + apply N.ltb_ge in E. apply IH.
      * rewrite Nat2N.inj_succ, N.pow_succ_r' in Hu.
        apply N.Div0.div_lt_upper_bound. lia.
      * simpl. rewrite is_digit_digit; [exact Hacc|].
        apply N.mod_lt. lia.
Qed.

Lemma formatBits_nonempty (fuel : nat) (u : N) (acc : gostring) :
  strconv.formatBits fuel u acc <> [].
Proof.
  revert u acc. induction fuel as [|fuel IH]; intros u acc; simpl.
  - discriminate.
  - destruct (u <? 10)%N; [discriminate | apply IH].
Qed.

Lemma ParseUint_loop_formatBits (maxVal : N) (fuel : nat) (u : N) (acc : gostring) :
  (u < 2 ^ N.of_nat fuel)%N -> (u <= maxVal)%N -> (maxVal < 2 ^ 64 / 10 + 1)%N ->
  strconv.ParseUint_loop maxVal (strconv.formatBits fuel u acc) 0
  = strconv.ParseUint_loop maxVal acc u.
Proof.
  intros Hu Hmax Hcut. revert u acc Hu Hmax.
  assert (Hstep : forall (d : N) (n : N) (acc : gostring),
             (d < 10)%N -> (n * 10 + d <= maxVal)%N ->
             strconv.ParseUint_loop maxVal (strconv.digit d :: acc) n
             = strconv.ParseUint_loop maxVal acc (n * 10 + d)).
  { intros d n acc Hd Hn. cbn [strconv.ParseUint_loop].
    rewrite is_digit_digit, digit_val_digit by exact Hd.
    replace (2 ^ 64 / 10 + 1 <=? n)%N with false
      by (symmetry; apply N.leb_gt; lia).
    replace (maxVal <? n * 10 + d)%N with false
      by (symmetry; apply N.ltb_ge; lia).
    reflexivity. }
  induction fuel as [|fuel IH]; intros u acc Hu Hmax.
  - simpl in Hu. cbn [strconv.formatBits]. now rewrite Hstep by lia.
  - cbn [strconv.formatBits]. destruct (u <? 10)%N eqn:E.
    + apply N.ltb_lt in E. now rewrite Hstep by lia.
    + apply N.ltb_ge in E.
      assert (Hdiv : (u / 10 * 10 + u mod 10 = u)%N).
      { rewrite N.mul_comm. symmetry. apply N.div_mod. lia. }
      assert (Hle : (u / 10 <= u)%N) by (apply N.Div0.div_le_upper_bound; lia).
      rewrite IH.
      * rewrite Hstep; [now rewrite Hdiv | apply N.mod_lt; lia | lia].
      * rewrite Nat2N.inj_succ, N.pow_succ_r' in Hu.
        apply N.Div0.div_lt_upper_bound. lia.
      * lia.
Qed.

Lemma FormatUint_digits (u : N) :
  forallb strconv.is_digit (strconv.FormatUint u) = true.
Proof.
  unfold strconv.FormatUint. apply formatBits_digits; [|reflexivity].
  rewrite N2Nat.id. apply N.size_gt.
Qed.

Lemma FormatUint_plain (u : N) : forallb plain (strconv.FormatUint u) = true.
Proof.
  pose proof (FormatUint_digits u) as H.
  induction (strconv.FormatUint u) as [|c l IH]; [reflexivity|].
  simpl in *. apply andb_true_iff in H as [Hc Hl].
  now rewrite is_digit_plain, IH.
Qed.

Lemma FormatUint_nonempty (u : N) : strconv.FormatUint u <> [].
Proof. apply formatBits_nonempty. Qed.

(** [ParseUint] reads back what [%d] printed, when the value fits. *)
Lemma ParseUint_FormatUint (u bitSize : N) :
  (u < 2 ^ bitSize)%N -> (bitSize <= 16)%N ->
  strconv.ParseUint (strconv.FormatUint u) bitSize = Some u.
Proof.
  intros Hu Hb. unfold strconv.ParseUint.
  destruct (strconv.FormatUint u) eqn:E; [now apply FormatUint_nonempty in E|].
  rewrite <- E. unfold strconv.FormatUint.
  assert (H16 : (2 ^ bitSize <= 2 ^ 16)%N) by (apply N.pow_le_mono_r; lia).
  assert (Hpos : (0 < 2 ^ bitSize)%N) by lia.
  rewrite ParseUint_loop_formatBits.
  - reflexivity.
  - rewrite N2Nat.id. apply N.size_gt.
  - lia.
  - change (2 ^ 16)%N with 65536%N in H16.
    change (2 ^ 64 / 10 + 1)%N with 1844674407370955162%N. lia.
Qed.

(** A field that is not a number makes [ParseUint] fail. *)
Lemma ParseUint_loop_non_digit (maxVal : N) (s : gostring) (n : N) :
  existsb (fun c => negb (strconv.is_digit c)) s = true ->
  strconv.ParseUint_loop maxVal s n = None.
Proof.
  revert n. induction s as [|c s IH]; intros n H; [discriminate|].
  simpl in H. cbn [strconv.ParseUint_loop].
  destruct (strconv.is_digit c); [|reflexivity].
  simpl in H.
  destruct (2 ^ 64 / 10 + 1 <=? n)%N; [reflexivity|].
  destruct (maxVal <? n * 10 + strconv.digit_val c)%N; [reflexivity|].
  now apply IH.
Qed.

Lemma ParseUint_non_numeric (s : gostring) (bitSize : N) :
  spec.non_numeric s -> strconv.ParseUint s bitSize = None.
Proof.
  intros [-> | H]; [reflexivity|].
  destruct s as [|c s]; [reflexivity|].
  unfold strconv.ParseUint. now apply ParseUint_loop_non_digit.
Qed.

(** ** The record converter *)

Section Converter.

Context `{X : Extern}.

Lemma TrimSuffix_no_dot (s : gostring) :
  ends_with_dot s = false -> strings.TrimSuffix s [dot] = s.
Proof. unfold strings.TrimSuffix, ends_with_dot. now intros ->. Qed.

(** The name of a well-formed record comes back from the provider's
    fully-qualified form. *)
Lemma name_roundtrip (name zone : gostring) :
  spec.name_ok name zone ->
  exists name',
    slice_to (fqdn name zone) (Z.of_nat (length (fqdn name zone)) - 1)
    = Some name' /\
    RelativeName name' zone = name.
Proof.
  intros (Hne & Hdot & Hsuf & Hzone).
  set (z := strings.TrimRight zone dot) in *.
  assert (Hf : fqdn name zone = (name ++ [dot] ++ z) ++ [dot]).
  { unfold fqdn. cbv zeta. rewrite (TrimRight_fix _ Hdot). fold z.
    now rewrite Hsuf. }
  exists (name ++ [dot] ++ z). split.
  - rewrite Hf. apply slice_to_snoc.
  - assert (Hz : ends_with_dot z = false) by apply TrimRight_no_dot.
    assert (Hz' : z <> []).
    { intros E. rewrite E, HasSuffix_nil in Hsuf. discriminate. }
    assert (Hx : ends_with_dot (name ++ [dot] ++ z) = false).
    { destruct (exists_last Hz') as [p [d Hp]].
      rewrite Hp in *. rewrite ends_with_dot_snoc in Hz.
      replace (name ++ [dot] ++ p ++ [d]) with ((name ++ [dot] ++ p) ++ [d])
        by now rewrite <- !app_assoc.
      now rewrite ends_with_dot_snoc. }
    unfold RelativeName. rewrite (TrimSuffix_no_dot _ Hx), Hzone.
    replace (name ++ [dot] ++ z) with ((name ++ [dot]) ++ z)
      by now rewrite <- app_assoc.
    rewrite !TrimSuffix_app.
    destruct name; [contradiction | reflexivity].
Qed.

Lemma wrap64_small (z : Z) : (- 2 ^ 63 <= z < 2 ^ 63)%Z -> wrap64 z = z.
Proof.
  intros H. unfold wrap64. rewrite Z.mod_small; lia.
Qed.

Lemma ttl_roundtrip (ttl : Z) :
  spec.Seconds_exact -> spec.ttl_ok ttl ->
  wrap64 (Duration_Seconds_int ttl * Second) = ttl.
Proof.
  intros Hs (k & -> & Hr). rewrite Hs by exact Hr. now apply wrap64_small.
Qed.

(** *** The type switch of [convertToLibdnsRecord], case by case *)

Lemma convert_address (rec : rfns.record) (zone name' : gostring) :
  slice_to (rfns.Name rec) (Z.of_nat (length (rfns.Name rec)) - 1) = Some name' ->
  strings_ToUpper (rfns.Type_ rec) = str "A"
  \/ strings_ToUpper (rfns.Type_ rec) = str "AAAA" ->
  convertToLibdnsRecord rec zone
  = Some match netip_ParseAddr (rfns.Data rec) with
         | None =>
             fallback (RelativeName name' zone) rec (wrap64 (rfns.TTL rec * Second))
         | Some ip =>
             Address (RelativeName name' zone) (wrap64 (rfns.TTL rec * Second)) ip
         end.
Proof.
  intros Hn [Ht|Ht]; unfold convertToLibdnsRecord; rewrite Hn, Ht; reflexivity.
Qed.

Lemma convert_MX (rec : rfns.record) (zone name' : gostring) :
  slice_to (rfns.Name rec) (Z.of_nat (length (rfns.Name rec)) - 1) = Some name' ->
  strings_ToUpper (rfns.Type_ rec) = str "MX" ->
  convertToLibdnsRecord rec zone
  = Some match strings.Fields (rfns.Data rec) with
         | [p0; p1] =>
             match strconv.ParseUint p0 16 with
             | None =>
                 fallback (RelativeName name' zone) rec
                   (wrap64 (rfns.TTL rec * Second))
             | Some pref =>
                 MX (RelativeName name' zone) (wrap64 (rfns.TTL rec * Second))
                   (pref mod 2 ^ 16) p1
             end
         | _ => fallback (RelativeName name' zone) rec (wrap64 (rfns.TTL rec * Second))
         end.
Proof.
  intros Hn Ht; unfold convertToLibdnsRecord; rewrite Hn, Ht; reflexivity.
Qed.

Lemma convert_TXT (rec : rfns.record) (zone name' : gostring) :
  slice_to (rfns.Name rec) (Z.of_nat (length (rfns.Name rec)) - 1) = Some name' ->
  strings_ToUpper (rfns.Type_ rec) = str "TXT" ->
  convertToLibdnsRecord rec zone
  = Some (TXT (RelativeName name' zone) (wrap64 (rfns.TTL rec * Second))
            (rfns.Data rec)).
Proof.
  intros Hn Ht; unfold convertToLibdnsRecord; rewrite Hn, Ht; reflexivity.
Qed.

Lemma convert_CNAME (rec : rfns.record) (zone name' : gostring) :
  slice_to (rfns.Name rec) (Z.of_nat (length (rfns.Name rec)) - 1) = Some name' ->
  strings_ToUpper (rfns.Type_ rec) = str "CNAME" ->
  convertToLibdnsRecord rec zone
  = Some (CNAME (RelativeName name' zone) (wrap64 (rfns.TTL rec * Second))
            (rfns.Data rec)).
Proof.
  intros Hn Ht; unfold convertToLibdnsRecord; rewrite Hn, Ht; reflexivity.
Qed.

Lemma convert_NS (rec : rfns.record) (zone name' : gostring) :
  slice_to (rfns.Name rec) (Z.of_nat (length (rfns.Name rec)) - 1) = Some name' ->
  strings_ToUpper (rfns.Type_ rec) = str "NS" ->
  convertToLibdnsRecord rec zone
  = Some (NS (RelativeName name' zone) (wrap64 (rfns.TTL rec * Second))
            (rfns.Data rec)).
Proof.
  intros Hn Ht; unfold convertToLibdnsRecord; rewrite Hn, Ht; reflexivity.
Qed.

Lemma convert_SRV (rec : rfns.record) (zone name' : gostring) :
  slice_to (rfns.Name rec) (Z.of_nat (length (rfns.Name rec)) - 1) = Some name' ->
  strings_ToUpper (rfns.Type_ rec) = str "SRV" ->
  convertToLibdnsRecord rec zone
  = Some match strings.Fields (rfns.Data rec) with
         | [p0; p1; p2; p3] =>
             match strconv.ParseUint p0 16, strconv.ParseUint p1 16,
                   strconv.ParseUint p2 16 with
             | Some priority, Some weight, Some port =>
                 SRV (RelativeName name' zone) (wrap64 (rfns.TTL rec * Second))
                   (priority mod 2 ^ 16) (weight mod 2 ^ 16)
                   (port mod 2 ^ 16) p3
             | _, _, _ =>
                 fallback (RelativeName name' zone) rec
                   (wrap64 (rfns.TTL rec * Second))
             end
         | _ => fallback (RelativeName name' zone) rec (wrap64 (rfns.TTL rec * Second))
         end.
Proof.
  intros Hn Ht; unfold convertToLibdnsRecord; rewrite Hn, Ht; reflexivity.
Qed.

Lemma convert_CAA (rec : rfns.record) (zone name' : gostring) :
  slice_to (rfns.Name rec) (Z.of_nat (length (rfns.Name rec)) - 1) = Some name' ->
  strings_ToUpper (rfns.Type_ rec) = str "CAA" ->
  convertToLibdnsRecord rec zone
  = Some match strings.SplitN (rfns.Data rec) space 3 with
         | [p0; p1; p2] =>
             match strconv.ParseUint p0 8 with
             | None =>
                 fallback (RelativeName name' zone) rec
                   (wrap64 (rfns.TTL rec * Second))
             | Some flags =>
                 CAA (RelativeName name' zone) (wrap64 (rfns.TTL rec * Second))
                   (flags mod 2 ^ 8) p1 p2
             end
         | _ => fallback (RelativeName name' zone) rec (wrap64 (rfns.TTL rec * Second))
         end.
Proof.
  intros Hn Ht; unfold convertToLibdnsRecord; rewrite Hn, Ht; reflexivity.
Qed.

Lemma convert_total (rec : rfns.record) (zone name' : gostring) :
  slice_to (rfns.Name rec) (Z.of_nat (length (rfns.Name rec)) - 1) = Some name' ->
  exists r, convertToLibdnsRecord rec zone = Some r
            /\ Name_of r = RelativeName name' zone
            /\ (is_SRV r = false ->
                libdns.Name (RR_of r) = RelativeName name' zone).
Proof.
  intros Hn. unfold convertToLibdnsRecord. rewrite Hn. cbv zeta.
  eexists. split; [reflexivity|].
  repeat match goal with
         | |- context [if ?b then _ else _] => destruct b
         | |- context [match ?o with Some _ => _ | None => _ end] => destruct o
         | |- context [match ?l with [] => _ | _ :: _ => _ end] => destruct l
         end;
    (split; [reflexivity | intros E; solve [reflexivity | discriminate E]]).
Qed.

Ltac encode_fields :=
  unfold convertFromLibdnsRecord;
  cbn [RR_of libdns.Name libdns.Type_ libdns.Data libdns.TTL
       rfns.ID rfns.Name rfns.Type_ rfns.Data rfns.TTL rfns.Priority].

Lemma mod_small_16 (n : N) : (n < 2 ^ 16)%N -> (n mod 2 ^ 16 = n)%N.
Proof. apply N.mod_small. Qed.

(** What decoding returns for an encoded CAA record: the value is the
    part of the data that [RR()] wrote after the flags and the tag. *)
Lemma decode_encode_CAA (name : gostring) (ttl : Z) (flags : N)
    (tag value q zone : gostring) :
  spec.Seconds_exact -> spec.well_formed (CAA name ttl flags tag value) zone ->
  CAA_Data flags tag value
  = strconv.FormatUint flags ++ [space] ++ tag ++ [space] ++ q ->
  convertToLibdnsRecord
    (convertFromLibdnsRecord (CAA name ttl flags tag value) zone) zone
  = Some (CAA name ttl flags tag q).
Proof.
  intros Hs (Hname & Httl & Hflags & Htag) Hd.
  destruct (name_roundtrip _ _ Hname) as (name' & Hslice & Hrel).
  rewrite (convert_CAA _ _ name');
    [ | encode_fields; exact Hslice | reflexivity ].
  encode_fields. rewrite Hd.
  cbn [strings.SplitN].
  rewrite (Cut_none_app _ _ _ (Cut_plain _ (FormatUint_plain flags))).
  rewrite (Cut_none_app _ _ _ Htag).
  rewrite ParseUint_FormatUint by (exact Hflags || lia).
  rewrite N.mod_small by exact Hflags.
  now rewrite Hrel, (ttl_roundtrip _ Hs Httl).
Qed.


(** Decoding panics exactly on an empty name. *)
Lemma convert_none_iff (rec : rfns.record) (zone : gostring) :
  convertToLibdnsRecord rec zone = None <-> rfns.Name rec = [].
Proof.
  rewrite <- slice_to_last_none. unfold convertToLibdnsRecord.
  destruct (slice_to (rfns.Name rec) (Z.of_nat (length (rfns.Name rec)) - 1));
    split; congruence.
Qed.

Lemma slice_nonempty (s : gostring) :
  s <> [] -> exists p c, s = p ++ [c]
                         /\ slice_to s (Z.of_nat (length s) - 1) = Some p.
Proof.
  intros H. destruct (exists_last H) as [p [c ->]].
  exists p, c. split; [reflexivity | apply slice_to_snoc].
Qed.

(** C2, amended: a provider record with a non-empty name always decodes,
    and when its data is malformed for its type it decodes to the plain
    [RR] that keeps the type and the data string as they came. *)
Theorem malformed_decodes_to_raw (rec : rfns.record) (zone : gostring) :
  rfns.Name rec <> [] ->
  (exists r, convertToLibdnsRecord rec zone = Some r) /\
  (spec.Malformed (strings_ToUpper (rfns.Type_ rec)) (rfns.Data rec) ->
   exists relName ttl,
     convertToLibdnsRecord rec zone
     = Some (RR (libdns.mkRR relName ttl (rfns.Type_ rec) (rfns.Data rec)))).
Proof.
  intros Hne. destruct (slice_nonempty _ Hne) as (name' & c & _ & Hslice).
  split.
  - destruct (convert_total rec zone name' Hslice) as (r & Hr & _). now exists r.
  - intros Hmal.
    exists (RelativeName name' zone), (wrap64 (rfns.TTL rec * Second)).
    remember (strings_ToUpper (rfns.Type_ rec)) as typ eqn:Htyp.
    remember (rfns.Data rec) as d eqn:Hd.
    symmetry in Htyp.
    destruct Hmal as [data Hip | data Hip | data Hlen | data p0 p1 Hf Hnum
                     | data Hlen | data p0 p1 p2 p3 Hf Hnum
                     | data Hlen | data p0 p1 p2 Hf Hnum];
      subst data.
    + rewrite (convert_address _ _ name' Hslice (or_introl Htyp)).
      now rewrite Hip.
    + rewrite (convert_address _ _ name' Hslice (or_intror Htyp)).
      now rewrite Hip.
    + rewrite (convert_MX _ _ name' Hslice Htyp).
      destruct (strings.Fields (rfns.Data rec)) as [|p0 [|p1 [|p2 l]]];
        try reflexivity. now contradiction Hlen.
    + rewrite (convert_MX _ _ name' Hslice Htyp), Hf.
      now rewrite (ParseUint_non_numeric _ _ Hnum).
    + rewrite (convert_SRV _ _ name' Hslice Htyp).
      destruct (strings.Fields (rfns.Data rec)) as [|p0 [|p1 [|p2 [|p3 [|p4 l]]]]];
        try reflexivity. now contradiction Hlen.
    + rewrite (convert_SRV _ _ name' Hslice Htyp), Hf.
      destruct Hnum as [Hnum|[Hnum|Hnum]];
        rewrite (ParseUint_non_numeric _ _ Hnum);
        repeat match goal with
               | |- context [match ?o with Some _ => _ | None => _ end] =>
                   destruct o
               end; reflexivity.
    + rewrite (convert_CAA _ _ name' Hslice Htyp).
      destruct (strings.SplitN (rfns.Data rec) space 3) as [|p0 [|p1 [|p2 [|p3 l]]]];
        try reflexivity. now contradiction Hlen.
    + rewrite (convert_CAA _ _ name' Hslice Htyp), Hf.
      now rewrite (ParseUint_non_numeric _ _ Hnum).
Qed.

(** C4: in [upsertRecord] the priority of an SRV record is left unset,
    although [convertFromLibdnsRecord] sets it from the record's
    priority; a service binding gets its priority in [upsertRecord]
    only. *)
Theorem upsert_drops_SRV_priority
    (name : gostring) (ttl : Z) (prio weight port : N) (target zone : gostring) :
  rfns.Priority (upsert_update_rec (SRV name ttl prio weight port target) zone)
  = None /\
  rfns.Priority
    (convertFromLibdnsRecord (SRV name ttl prio weight port target) zone)
  = Some (Z.of_N prio).
Proof. split; reflexivity. Qed.

(** What [convertFromLibdnsRecord] does with the priority, variant by
    variant. *)
Lemma convertFromLibdnsRecord_priority (r : record) (zone : gostring) :
  rfns.Priority (convertFromLibdnsRecord r zone)
  = match r with
    | MX _ _ pref _ => Some (Z.of_N pref)
    | SRV _ _ prio _ _ _ => Some (Z.of_N prio)
    | _ => None
    end.
Proof. destruct r; reflexivity. Qed.

(** Apart from the priority, [upsertRecord] encodes a record as
    [convertFromLibdnsRecord] does; the priorities differ for SRV and
    service bindings only. *)
Lemma upsert_update_rec_fields (r : record) (zone : gostring) :
  rfns.ID (upsert_update_rec r zone) = rfns.ID (convertFromLibdnsRecord r zone)
  /\ rfns.Name (upsert_update_rec r zone) = fqdn (libdns.Name (RR_of r)) zone
  /\ rfns.Name (convertFromLibdnsRecord r zone) = fqdn (libdns.Name (RR_of r)) zone
  /\ rfns.Type_ (upsert_update_rec r zone) = libdns.Type_ (RR_of r)
  /\ rfns.Type_ (convertFromLibdnsRecord r zone) = libdns.Type_ (RR_of r)
  /\ rfns.Data (upsert_update_rec r zone) = libdns.Data (RR_of r)
  /\ rfns.Data (convertFromLibdnsRecord r zone) = libdns.Data (RR_of r)
  /\ rfns.TTL (upsert_update_rec r zone) = Duration_Seconds_int (libdns.TTL (RR_of r))
  /\ rfns.TTL (convertFromLibdnsRecord r zone)
     = Duration_Seconds_int (libdns.TTL (RR_of r)).
Proof. destruct r; repeat split; reflexivity. Qed.

Lemma upsert_update_rec_eq (r : record) (zone : gostring) :
  match r with
  | SRV _ _ _ _ _ _ | ServiceBinding _ _ _ _ _ _ _ => True
  | _ => upsert_update_rec r zone = convertFromLibdnsRecord r zone
  end.
Proof. destruct r; try exact I; reflexivity. Qed.

End Converter.

(** ** The matcher, the upsert engine and the batch operations *)

Section Reconciler.

Context `{X : Extern} `{C : rfns.Client}.

Lemma find_first {A : Type} (p : A -> bool) (l1 l2 : list A) (c : A) :
  (forall a, In a l1 -> p a = false) -> p c = true ->
  find p (l1 ++ c :: l2) = Some c.
Proof.
  intros H1 Hc. induction l1 as [|a l1 IH]; simpl.
  - now rewrite Hc.
  - rewrite (H1 a) by now left. apply IH. intros b Hb. apply H1. now right.
Qed.

Lemma upsert_matches_iff (zone : gostring) (rr : libdns.RR) (rec : rfns.record) :
  upsert_matches zone rr rec = true
  <-> fqdn (rfns.Name rec) zone = fqdn (libdns.Name rr) zone
      /\ rfns.Type_ rec = libdns.Type_ rr.
Proof.
  unfold upsert_matches. now rewrite andb_true_iff, !streq_eq.
Qed.

Lemma delete_matches_iff (zone : gostring) (rr : libdns.RR) (rec : rfns.record) :
  delete_matches zone rr rec = true
  <-> fqdn (rfns.Name rec) zone = fqdn (libdns.Name rr) zone
      /\ rfns.Type_ rec = libdns.Type_ rr
      /\ rfns.Data rec = libdns.Data rr.
Proof.
  unfold delete_matches. rewrite !andb_true_iff, !streq_eq. tauto.
Qed.

Lemma upsert_loop_find (zone : gostring) (rr : libdns.RR)
    (update_rec : rfns.record) (records : list rfns.record) (s : St) :
  upsert_loop zone rr update_rec records s
  = match find (upsert_matches zone rr) records with
    | Some c => update_with c update_rec s
    | None => create_with update_rec s
    end.
Proof.
  induction records as [|rec rest IH]; simpl.
  - unfold create_with, bind, client_CreateRecord.
    now destruct (rfns.CreateRecord update_rec (world s)) as [[resp err] w].
  - destruct (upsert_matches zone rr rec); [|exact IH].
    unfold update_with, bind, client_UpdateRecordById.
    now destruct (rfns.UpdateRecordById (rfns.ID rec) update_rec (world s))
      as [[resp err] w].
Qed.

Lemma find_rrid_find (zone : gostring) (rr : libdns.RR)
    (all_records : list rfns.record) :
  find_rrid zone rr all_records
  = match find (delete_matches zone rr) all_records with
    | Some c => rfns.ID c
    | None => 0%Z
    end.
Proof.
  induction all_records as [|rec rest IH]; simpl; [reflexivity|].
  now destruct (delete_matches zone rr rec).
Qed.

(** C3: [upsertRecord] fetches the records of the zone, builds the
    provider record of the desired record, and scans the fetched list
    for the first record with the same FQDN and type; with a match it
    calls update-by-id with that record's ID, without one it calls
    create, and either way it returns what the provider returned.  A
    failed fetch ends the call with the provider's error.  The record
    sent has no ID, the normalized name, the type, the data and the TTL
    in seconds of [RR()], and a priority for an MX record and a service
    binding only.  It is the record that [convertFromLibdnsRecord]
    encodes, except for an SRV record, which is sent without the priority
    that the encoder gives it, and for a service binding. *)
Theorem upsertRecord_reconciles (r : record) (zone : gostring) (s : St) :
  let '((records, gerr), w1) := rfns.GetRecordsByDomain zone (world s) in
  let s1 := log s w1 (rfns.CallGet zone) in
  let rr := RR_of r in
  let update_rec := upsert_update_rec r zone in
  let sent priority :=
    rfns.mkRecord 0 (fqdn (libdns.Name rr) zone) (libdns.Type_ rr)
      (libdns.Data rr) (Duration_Seconds_int (libdns.TTL rr)) priority in
  match r with
  | MX _ _ pref _ =>
      update_rec = sent (Some (Z.of_N pref)) /\
      convertFromLibdnsRecord r zone = update_rec
  | SRV _ _ prio _ _ _ =>
      update_rec = sent None /\
      convertFromLibdnsRecord r zone = sent (Some (Z.of_N prio)) /\
      convertFromLibdnsRecord r zone <> update_rec
  | ServiceBinding _ _ _ _ prio _ _ =>
      update_rec = sent (Some (Z.of_N prio)) /\
      convertFromLibdnsRecord r zone = sent None
  | _ =>
      update_rec = sent None /\ convertFromLibdnsRecord r zone = update_rec
  end /\
  (forall rec, upsert_matches zone rr rec = true
               <-> fqdn (rfns.Name rec) zone = rfns.Name update_rec
                   /\ rfns.Type_ rec = rfns.Type_ update_rec) /\
  upsertRecord r zone s
  = match gerr with
    | Some e => (Val (None, Some e), s1)
    | None =>
        match find (upsert_matches zone rr) records with
        | Some c =>
            let '((resp, err), w2) :=
              rfns.UpdateRecordById (rfns.ID c) update_rec w1 in
            (Val (Some resp, err),
             mkSt w2 (calls s ++ [rfns.CallGet zone;
                                  rfns.CallUpdate (rfns.ID c) update_rec]))
        | None =>
            let '((resp, err), w2) := rfns.CreateRecord update_rec w1 in
            (Val (Some resp, err),
             mkSt w2 (calls s ++ [rfns.CallGet zone;
                                  rfns.CallCreate update_rec]))
        end
    end.
Proof.
  destruct (rfns.GetRecordsByDomain zone (world s)) as [[records gerr] w1] eqn:G.
  cbv zeta. split; [|split].
  - destruct r; repeat split; try reflexivity.
    unfold convertFromLibdnsRecord, upsert_update_rec. cbv zeta.
    cbn [rfns.ID rfns.Name rfns.Type_ rfns.Data rfns.TTL].
    intros E. apply (f_equal rfns.Priority) in E. discriminate E.
  - intros rec. rewrite upsert_matches_iff.
    destruct (upsert_update_rec_fields r zone) as (_ & Hn & _ & Ht & _).
    now rewrite Hn, Ht.
  - unfold upsertRecord, bind, client_GetRecordsByDomain. rewrite G.
    destruct gerr as [e|]; [reflexivity|].
    rewrite upsert_loop_find.
    destruct (find (upsert_matches zone (RR_of r)) records) as [c|].
    + unfold update_with, log. cbn [world calls].
      destruct (rfns.UpdateRecordById (rfns.ID c) (upsert_update_rec r zone) w1)
        as [[resp err] w2].
      now rewrite <- app_assoc.
    + unfold create_with, log. cbn [world calls].
      destruct (rfns.CreateRecord (upsert_update_rec r zone) w1)
        as [[resp err] w2].
      now rewrite <- app_assoc.
Qed.

(** C7: when several fetched records satisfy the match condition, the
    first one in the order of the fetched list is taken, in
    [upsertRecord] and in [DeleteRecords] alike; the later ones play no
    part and no error arises from the ambiguity. *)
Theorem first_match_in_list_order (zone : gostring) (rr : libdns.RR)
    (l1 l2 : list rfns.record) (c : rfns.record) :
  ((forall rec, In rec l1 -> upsert_matches zone rr rec = false) ->
   upsert_matches zone rr c = true ->
   forall update_rec s,
     upsert_loop zone rr update_rec (l1 ++ c :: l2) s
     = update_with c update_rec s) /\
  ((forall rec, In rec l1 -> delete_matches zone rr rec = false) ->
   delete_matches zone rr c = true ->
   find_rrid zone rr (l1 ++ c :: l2) = rfns.ID c).
Proof.
  split; intros H1 Hc.
  - intros update_rec s.
    now rewrite upsert_loop_find, (find_first _ _ _ _ H1 Hc).
  - now rewrite find_rrid_find, (find_first _ _ _ _ H1 Hc).
Qed.

(** Decoding does not look at the ID of the provider record. *)
Lemma convert_with_ID (id : Z) (rec : rfns.record) (zone : gostring) :
  convertToLibdnsRecord (rfns.with_ID id rec) zone
  = convertToLibdnsRecord rec zone.
Proof. reflexivity. Qed.

(** C8, amended: the matcher never consults an ID.  The desired record
    carries none: the record that decoding builds is the same whatever
    the ID of the provider record.  A fetched record satisfies the
    condition of [upsertRecord] exactly when its normalized name and its
    type are the desired ones, and the condition of [DeleteRecords]
    exactly when its data is the desired one as well, whatever its ID;
    the ID of a fetched record serves only once the record is chosen, as
    the target of the update or the delete.  The ID-first rule belongs
    to the earlier revision, where a fetched record whose ID is the
    desired one matches before names and types are compared. *)
Theorem matcher_ignores_ids (zone : gostring) (rr : libdns.RR)
    (rec : rfns.record) (id : Z) :
  convertToLibdnsRecord (rfns.with_ID id rec) zone
  = convertToLibdnsRecord rec zone /\
  (upsert_matches zone rr rec = true
   <-> fqdn (rfns.Name rec) zone = fqdn (libdns.Name rr) zone
       /\ rfns.Type_ rec = libdns.Type_ rr) /\
  (delete_matches zone rr rec = true
   <-> fqdn (rfns.Name rec) zone = fqdn (libdns.Name rr) zone
       /\ rfns.Type_ rec = libdns.Type_ rr
       /\ rfns.Data rec = libdns.Data rr) /\
  upsert_matches zone rr (rfns.with_ID id rec) = upsert_matches zone rr rec /\
  delete_matches zone rr (rfns.with_ID id rec) = delete_matches zone rr rec /\
  (forall update_rec records s,
      upsert_loop zone rr update_rec records s
      = match find (upsert_matches zone rr) records with
        | Some c => update_with c update_rec s
        | None => create_with update_rec s
        end) /\
  (forall all_records,
      find_rrid zone rr all_records
      = match find (delete_matches zone rr) all_records with
        | Some c => rfns.ID c
        | None => 0%Z
        end) /\
  (forall old : Legacy.record,
      Legacy.ID old = strconv.FormatInt (rfns.ID rec) ->
      Legacy.upsert_matches zone old rec = true
      /\ Legacy.delete_matches zone old rec = true).
Proof.
  split; [apply convert_with_ID|].
  split; [apply upsert_matches_iff|].
  split; [apply delete_matches_iff|].
  split; [reflexivity|]. split; [reflexivity|].
  split; [intros; apply upsert_loop_find|].
  split; [intros; apply find_rrid_find|].
  intros old H. unfold Legacy.upsert_matches, Legacy.delete_matches.
  rewrite H, streq_refl. split; reflexivity.
Qed.

(** *** The loops of the batch operations *)

Lemma AppendRecords_loop_app (zone : gostring) (l1 l2 : list record)
    (acc acc1 : list record) (s s1 : St) :
  AppendRecords_loop zone l1 acc s = (Val (acc1, None), s1) ->
  AppendRecords_loop zone (l1 ++ l2) acc s = AppendRecords_loop zone l2 acc1 s1.
Proof.
  revert acc s. induction l1 as [|r l1 IH]; intros acc s H.
  - simpl in *. unfold ret in H. now inversion H.
  - simpl in *. unfold bind, client_CreateRecord in *.
    destruct (rfns.CreateRecord (convertFromLibdnsRecord r zone) (world s))
      as [[createdRec err] w].
    destruct err as [e|]; [discriminate H|].
    destruct (convertToLibdnsRecord createdRec zone) as [cr|];
      [|discriminate H].
    simpl in *. now apply IH.
Qed.

Lemma SetRecords_loop_app (zone : gostring) (l1 l2 : list record)
    (acc acc1 : list record) (s s1 : St) :
  SetRecords_loop zone l1 acc s = (Val (acc1, None), s1) ->
  SetRecords_loop zone (l1 ++ l2) acc s = SetRecords_loop zone l2 acc1 s1.
Proof.
  revert acc s. induction l1 as [|r l1 IH]; intros acc s H.
  - simpl in *. unfold ret in H. now inversion H.
  - simpl in *. unfold bind in *.
    destruct (upsertRecord r zone s) as [[[updateRec err]|] s'];
      [|discriminate H].
    destruct err as [e|]; [discriminate H|].
    destruct updateRec as [u|]; [|discriminate H].
    simpl in *.
    destruct (convertToLibdnsRecord u zone) as [ur|]; [|discriminate H].
    simpl in *. now apply IH.
Qed.

Lemma DeleteRecords_loop_app (zone : gostring) (all : list rfns.record)
    (l1 l2 : list record) (acc acc1 : list record) (s s1 : St) :
  DeleteRecords_loop zone all l1 acc s = (Val (acc1, None), s1) ->
  DeleteRecords_loop zone all (l1 ++ l2) acc s
  = DeleteRecords_loop zone all l2 acc1 s1.
Proof.
  revert acc s. induction l1 as [|r l1 IH]; intros acc s H.
  - simpl in *. unfold ret in H. now inversion H.
  - simpl in *.
    destruct (find_rrid zone (RR_of r) all =? 0)%Z; [discriminate H|].
    unfold bind, client_DeleteRecord in *.
    destruct (rfns.DeleteRecord (find_rrid zone (RR_of r) all) (world s))
      as [err w].
    destruct err as [e|]; [discriminate H|].
    now apply IH.
Qed.

Lemma DeleteRecords_loop_ok (zone : gostring) (all : list rfns.record)
    (records acc l : list record) (s s' : St) :
  DeleteRecords_loop zone all records acc s = (Val (l, None), s') ->
  l = acc ++ records.
Proof.
  revert acc s. induction records as [|r rest IH]; intros acc s H.
  - simpl in H. unfold ret in H. inversion H. now rewrite app_nil_r.
  - simpl in H.
    destruct (find_rrid zone (RR_of r) all =? 0)%Z; [discriminate H|].
    unfold bind, client_DeleteRecord in H.
    destruct (rfns.DeleteRecord (find_rrid zone (RR_of r) all) (world s))
      as [err w].
    destruct err as [e|]; [discriminate H|].
    apply IH in H. now rewrite <- app_assoc in H.
Qed.

Lemma DeleteRecords_fetch (zone : gostring) (records : list record) (s : St)
    (all : list rfns.record) (w : rfns.World) :
  rfns.GetRecordsByDomain zone (world s) = ((all, None), w) ->
  DeleteRecords zone records s
  = DeleteRecords_loop zone all records [] (log s w (rfns.CallGet zone)).
Proof.
  intros G. unfold DeleteRecords, bind, client_GetRecordsByDomain.
  now rewrite G.
Qed.

Lemma DeleteRecords_loop_cons (zone : gostring) (all : list rfns.record)
    (r : record) (rest acc : list record) (s : St) :
  DeleteRecords_loop zone all (r :: rest) acc s
  = if (find_rrid zone (RR_of r) all =? 0)%Z
    then (Val ([], Some (Errorf (not_found_msg (RR_of r)))), s)
    else delete_step zone all r rest acc (find_rrid zone (RR_of r) all) s.
Proof.
  simpl. destruct (find_rrid zone (RR_of r) all =? 0)%Z; [reflexivity|].
  unfold delete_step, bind, client_DeleteRecord.
  destruct (rfns.DeleteRecord (find_rrid zone (RR_of r) all) (world s))
    as [err w].
  now destruct err.
Qed.

(** C5: [DeleteRecords] fetches the records of the zone once and matches
    every input record on name, type and data.  Without a match the
    call fails with the not-found error and the provider receives no
    call for that record; with one (persisted records have a non-zero
    ID) the provider's delete is called with the ID of the first
    match, and a delete that goes through returns every input record,
    as it was given. *)
Theorem delete_matches_strictly (zone : gostring) (all : list rfns.record)
    (r : record) (rest acc : list record) (s : St) :
  (forall rec, delete_matches zone (RR_of r) rec = true
               <-> fqdn (rfns.Name rec) zone = fqdn (libdns.Name (RR_of r)) zone
                   /\ rfns.Type_ rec = libdns.Type_ (RR_of r)
                   /\ rfns.Data rec = libdns.Data (RR_of r)) /\
  ((forall rec, In rec all -> delete_matches zone (RR_of r) rec = false) ->
   DeleteRecords_loop zone all (r :: rest) acc s
   = (Val ([], Some (Errorf (not_found_msg (RR_of r)))), s)) /\
  (forall l1 c l2,
      all = l1 ++ c :: l2 ->
      (forall rec, In rec l1 -> delete_matches zone (RR_of r) rec = false) ->
      delete_matches zone (RR_of r) c = true ->
      rfns.ID c <> 0%Z ->
      DeleteRecords_loop zone all (r :: rest) acc s
      = delete_step zone all r rest acc (rfns.ID c) s) /\
  (forall l s',
      DeleteRecords_loop zone all (r :: rest) acc s = (Val (l, None), s') ->
      l = acc ++ r :: rest) /\
  (forall s0 w,
      rfns.GetRecordsByDomain zone (world s0) = ((all, None), w) ->
      DeleteRecords zone (r :: rest) s0
      = DeleteRecords_loop zone all (r :: rest) []
          (log s0 w (rfns.CallGet zone))).
Proof.
  split; [intros rec; apply delete_matches_iff|].
  split; [|split; [|split]].
  - intros Hnone. rewrite DeleteRecords_loop_cons, find_rrid_find.
    destruct (find (delete_matches zone (RR_of r)) all) as [c|] eqn:F;
      [|reflexivity].
    apply find_some in F as [Hin Hc]. rewrite (Hnone c Hin) in Hc.
    discriminate.
  - intros l1 c l2 -> H1 Hc Hid.
    rewrite DeleteRecords_loop_cons, find_rrid_find,
      (find_first _ _ _ _ H1 Hc).
    now destruct (Z.eqb_spec (rfns.ID c) 0).
  - intros l s' H. now apply DeleteRecords_loop_ok in H.
  - intros s0 w G. now apply DeleteRecords_fetch.
Qed.

(** C6, amended: the batch operations work through their input in
    order and stop at the first record that fails.  The state of the
    provider is then the one left by the records before it and by the
    failed attempt, nothing is called for the records after it, and the
    operation returns no records and one error: the provider's error
    wrapped with the record's name for append and set, the not-found
    error naming the record for delete, and, when the provider's delete
    fails, its error wrapped with the ID of the matched record. *)
Theorem batch_fail_fast (zone : gostring) (l1 : list record) (r : record)
    (l2 : list record) :
  (forall s acc1 s1 rec' e w2,
      AppendRecords zone l1 s = (Val (acc1, None), s1) ->
      rfns.CreateRecord (convertFromLibdnsRecord r zone) (world s1)
      = ((rec', Some e), w2) ->
      AppendRecords zone (l1 ++ r :: l2) s
      = (Val ([], Some (Errorf_w
                          (str "failed to create record "
                             ++ libdns.Name (RR_of r))
                          (ClientErr e))),
         log s1 w2 (rfns.CallCreate (convertFromLibdnsRecord r zone)))) /\
  (forall s acc1 s1 x e s2,
      SetRecords zone l1 s = (Val (acc1, None), s1) ->
      upsertRecord r zone s1 = (Val (x, Some e), s2) ->
      SetRecords zone (l1 ++ r :: l2) s
      = (Val ([], Some (Errorf_w
                          (str "failed to update record "
                             ++ libdns.Name (RR_of r))
                          (ClientErr e))),
         s2)) /\
  (forall s all w0 acc1 s1,
      rfns.GetRecordsByDomain zone (world s) = ((all, None), w0) ->
      DeleteRecords zone l1 s = (Val (acc1, None), s1) ->
      find_rrid zone (RR_of r) all = 0%Z ->
      DeleteRecords zone (l1 ++ r :: l2) s
      = (Val ([], Some (Errorf (not_found_msg (RR_of r)))), s1)) /\
  (forall s all w0 acc1 s1 e w2,
      rfns.GetRecordsByDomain zone (world s) = ((all, None), w0) ->
      DeleteRecords zone l1 s = (Val (acc1, None), s1) ->
      find_rrid zone (RR_of r) all <> 0%Z ->
      rfns.DeleteRecord (find_rrid zone (RR_of r) all) (world s1)
      = (Some e, w2) ->
      DeleteRecords zone (l1 ++ r :: l2) s
      = (Val ([], Some (Errorf_w
                          (str "failed to delete record ID "
                             ++ strconv.FormatInt
                                  (find_rrid zone (RR_of r) all))
                          (ClientErr e))),
         log s1 w2 (rfns.CallDelete (find_rrid zone (RR_of r) all)))).
Proof.
  split; [|split; [|split]].
  - intros s acc1 s1 rec' e w2 H1 Hc.
    unfold AppendRecords in *.
    rewrite (AppendRecords_loop_app _ _ _ _ _ _ _ H1).
    cbn [AppendRecords_loop]. unfold bind, client_CreateRecord.
    now rewrite Hc.
  - intros s acc1 s1 x e s2 H1 Hu.
    unfold SetRecords in *.
    rewrite (SetRecords_loop_app _ _ _ _ _ _ _ H1).
    cbn [SetRecords_loop]. unfold bind. now rewrite Hu.
  - intros s all w0 acc1 s1 G H1 Hz.
    rewrite (DeleteRecords_fetch zone l1 _ _ _ G) in H1.
    rewrite (DeleteRecords_fetch zone (l1 ++ r :: l2) _ _ _ G).
    rewrite (DeleteRecords_loop_app _ _ _ _ _ _ _ _ H1).
    now rewrite DeleteRecords_loop_cons, Hz.
  - intros s all w0 acc1 s1 e w2 G H1 Hz Hd.
    rewrite (DeleteRecords_fetch zone l1 _ _ _ G) in H1.
    rewrite (DeleteRecords_fetch zone (l1 ++ r :: l2) _ _ _ G).
    rewrite (DeleteRecords_loop_app _ _ _ _ _ _ _ _ H1).
    rewrite DeleteRecords_loop_cons.
    destruct (Z.eqb_spec (find_rrid zone (RR_of r) all) 0); [contradiction|].
    unfold delete_step. now rewrite Hd.
Qed.

(** *** Listing *)

Lemma GetRecords_loop_panics (zone : gostring) (records : list rfns.record)
    (acc : list record) (s : St) :
  fst (GetRecords_loop zone records acc s) = Panic
  <-> exists rec, In rec records /\ rfns.Name rec = [].
Proof.
  revert acc. induction records as [|rec rest IH]; intros acc.
  - simpl. split; [discriminate | intros (rec & [] & _)].
  - cbn [GetRecords_loop]. unfold bind, must.
    destruct (convertToLibdnsRecord rec zone) as [r|] eqn:E.
    + unfold ret. cbv beta iota. rewrite IH. split.
      * intros (rec' & Hin & Hn). exists rec'. split; [now right | exact Hn].
      * intros (rec' & [<- | Hin] & Hn).
        -- apply convert_none_iff with (zone := zone) in Hn. congruence.
        -- now exists rec'.
    + unfold panic. simpl. split; [|reflexivity].
      intros _. exists rec. split; [now left | now apply convert_none_iff in E].
Qed.

(** C10: [convertToLibdnsRecord] cuts off the last byte of the name
    before anything else, so it returns exactly when the name is not
    empty, and panics on the empty name whatever the type and data; a
    name that ends with a dot always decodes, to a record named by the
    name without that last byte, relative to the zone ([RR()] gives that
    name too, but for an SRV record, whose name it builds).  [GetRecords],
    which decodes every fetched record, panics exactly when the
    provider hands back a record with an empty name. *)
Theorem decode_needs_nonempty_name (rec : rfns.record) (zone : gostring) :
  (convertToLibdnsRecord rec zone = None <-> rfns.Name rec = []) /\
  (forall p c,
      rfns.Name rec = p ++ [c] ->
      exists r, convertToLibdnsRecord rec zone = Some r
                /\ Name_of r = RelativeName p zone
                /\ (is_SRV r = false ->
                    libdns.Name (RR_of r) = RelativeName p zone)) /\
  (ends_with_dot (rfns.Name rec) = true ->
   exists r, convertToLibdnsRecord rec zone = Some r) /\
  (forall s records w,
      rfns.GetRecordsByDomain zone (world s) = ((records, None), w) ->
      (fst (GetRecords zone s) = Panic
       <-> exists rec', In rec' records /\ rfns.Name rec' = [])).
Proof.
  split; [apply convert_none_iff|]. split; [|split].
  - intros p c Hn. apply convert_total. rewrite Hn. apply slice_to_snoc.
  - intros Hdot.
    destruct (convertToLibdnsRecord rec zone) as [r|] eqn:E; [now exists r|].
    apply convert_none_iff in E. rewrite E in Hdot. discriminate.
  - intros s records w G.
    unfold GetRecords, bind, client_GetRecordsByDomain. rewrite G.
    rewrite <- (GetRecords_loop_panics zone records []
                  (log s w (rfns.CallGet zone))).
    destruct (GetRecords_loop zone records [] (log s w (rfns.CallGet zone)))
      as [[l|] s']; simpl; split; intros H;
      solve [discriminate H | reflexivity].
Qed.

End Reconciler.


(** ** Further properties of the normalizer and the encoders *)

Section Encoding.

Context `{X : Extern}.

(** The normalized name always ends with the zone, stripped of its
    trailing dots, and one dot. *)
Lemma fqdn_in_zone (name zone : gostring) :
  exists m, fqdn name zone = m ++ strings.TrimRight zone dot ++ [dot].
Proof.
  unfold fqdn. cbv zeta.
  destruct (strings.HasSuffix (strings.TrimRight name dot)
              (strings.TrimRight zone dot)) eqn:E; cbn [negb].
  - apply HasSuffix_iff in E as [p E]. exists p.
    now rewrite E, <- app_assoc.
  - exists (strings.TrimRight name dot ++ [dot]).
    now rewrite <- !app_assoc.
Qed.

Lemma fqdn_twice (name zone : gostring) :
  fqdn (fqdn name zone) zone = fqdn name zone.
Proof.
  destruct (fqdn_in_zone name zone) as [m Hm].
  set (z := strings.TrimRight zone dot) in *.
  assert (Hz : ends_with_dot z = false) by apply TrimRight_no_dot.
  assert (Hmz : ends_with_dot (m ++ z) = false).
  { destruct z as [|c z'] eqn:Ez.
    - rewrite app_nil_r in *.
      (* the zone is empty: the name was only stripped of its dots *)
      unfold fqdn in Hm. cbv zeta in Hm. fold z in Hm. rewrite Ez in Hm.
      rewrite HasSuffix_nil in Hm. cbn [negb] in Hm.
      apply app_inj_tail in Hm as [Hm _]. rewrite <- Hm.
      apply TrimRight_no_dot.
    - destruct (@exists_last _ (c :: z')) as [p [d Hp]]; [discriminate|].
      rewrite Hp in *. rewrite ends_with_dot_snoc in Hz.
      rewrite app_assoc. now rewrite ends_with_dot_snoc. }
  rewrite Hm at 1. unfold fqdn at 1. cbv zeta. fold z.
  rewrite app_assoc, TrimRight_snoc_dot, (TrimRight_fix _ Hmz), HasSuffix_app.
  cbn [negb]. now rewrite Hm, app_assoc.
Qed.

Lemma fqdn_nonempty (name zone : gostring) : fqdn name zone <> [].
Proof.
  unfold fqdn. cbv zeta. intros H. apply app_eq_nil in H as [_ H]. discriminate.
Qed.

(** Both encoders produce a record that has no ID yet and whose name lies
    in the zone: it ends with the zone (without trailing dots) and one
    dot.  Such a record never makes the decoder panic. *)
Theorem encoded_record_in_zone (r : record) (zone : gostring) :
  let z := strings.TrimRight zone dot in
  (rfns.ID (convertFromLibdnsRecord r zone) = 0%Z /\
   (exists m, rfns.Name (convertFromLibdnsRecord r zone) = m ++ z ++ [dot]) /\
   exists r', convertToLibdnsRecord (convertFromLibdnsRecord r zone) zone = Some r')
  /\
  (rfns.ID (upsert_update_rec r zone) = 0%Z /\
   (exists m, rfns.Name (upsert_update_rec r zone) = m ++ z ++ [dot]) /\
   exists r', convertToLibdnsRecord (upsert_update_rec r zone) zone = Some r').
Proof.
  cbv zeta.
  destruct (upsert_update_rec_fields r zone)
    as (Hid & Hn1 & Hn2 & _).
  assert (Hdec : forall rec, rfns.Name rec = fqdn (libdns.Name (RR_of r)) zone ->
                             exists r', convertToLibdnsRecord rec zone = Some r').
  { intros rec Hn.
    destruct (convertToLibdnsRecord rec zone) as [r'|] eqn:E; [now exists r'|].
    apply convert_none_iff in E. rewrite Hn in E.
    now apply fqdn_nonempty in E. }
  assert (Hid2 : rfns.ID (convertFromLibdnsRecord r zone) = 0%Z)
    by (destruct r; reflexivity).
  repeat split.
  - exact Hid2.
  - rewrite Hn2. apply fqdn_in_zone.
  - now apply Hdec.
  - now rewrite Hid.
  - rewrite Hn1. apply fqdn_in_zone.
  - now apply Hdec.
Qed.

(** Two zone-relative names that survive the round trip have the same
    normalized form only when they are the same name. *)
Lemma fqdn_injective (a b zone : gostring) :
  spec.name_ok a zone -> spec.name_ok b zone ->
  fqdn a zone = fqdn b zone -> a = b.
Proof.
  intros Ha Hb E.
  destruct (name_roundtrip _ _ Ha) as (a' & Hsa & Hra).
  destruct (name_roundtrip _ _ Hb) as (b' & Hsb & Hrb).
  rewrite E in Hsa. rewrite Hsa in Hsb. inversion Hsb. subst b'.
  now rewrite <- Hra, <- Hrb.
Qed.

(** A record that one of the encoders produced for [r2], stored under any
    ID, satisfies the condition of [upsertRecord] for [r1] exactly when
    [r1] and [r2] have the same name and the same type; with the same data
    as well it satisfies the condition of [DeleteRecords]. *)
Theorem match_separates_names (r1 r2 : record) (zone : gostring) (id : Z) :
  spec.name_ok (libdns.Name (RR_of r1)) zone ->
  spec.name_ok (libdns.Name (RR_of r2)) zone ->
  (upsert_matches zone (RR_of r1) (rfns.with_ID id (upsert_update_rec r2 zone))
   = true
   <-> libdns.Name (RR_of r1) = libdns.Name (RR_of r2)
       /\ libdns.Type_ (RR_of r1) = libdns.Type_ (RR_of r2)) /\
  (delete_matches zone (RR_of r1)
     (rfns.with_ID id (convertFromLibdnsRecord r2 zone)) = true
   <-> libdns.Name (RR_of r1) = libdns.Name (RR_of r2)
       /\ libdns.Type_ (RR_of r1) = libdns.Type_ (RR_of r2)
       /\ libdns.Data (RR_of r1) = libdns.Data (RR_of r2)).
Proof.
  intros H1 H2.
  destruct (upsert_update_rec_fields r2 zone)
    as (_ & Hn1 & Hn2 & Ht1 & Ht2 & _ & Hd2 & _).
  pose proof (fqdn_twice (libdns.Name (RR_of r2)) zone) as Hidem.
  split.
  - unfold upsert_matches. cbn [rfns.with_ID rfns.Name rfns.Type_].
    rewrite andb_true_iff, !streq_eq, Hn1, Ht1, Hidem. split.
    + intros [En Et]. split; [|now symmetry].
      symmetry. now apply (fqdn_injective _ _ zone).
    + intros [En Et]. now rewrite En, Et.
  - unfold delete_matches. cbn [rfns.with_ID rfns.Name rfns.Type_ rfns.Data].
    rewrite !andb_true_iff, !streq_eq, Hn2, Ht2, Hd2, Hidem. split.
    + intros [[En Et] Ed]. repeat split; try now symmetry.
      symmetry. now apply (fqdn_injective _ _ zone).
    + intros (En & Et & Ed). now rewrite En, Et, Ed.
Qed.

End Encoding.

(** ** Further properties of the decoder *)

Section Decoding.

Context `{X : Extern}.

Lemma ParseUint_loop_bound (maxVal : N) (s : gostring) (n v : N) :
  (n <= maxVal)%N -> strconv.ParseUint_loop maxVal s n = Some v ->
  (v <= maxVal)%N.
Proof.
  revert n. induction s as [|c s IH]; intros n Hn H.
  - simpl in H. now inversion H; subst.
  - cbn [strconv.ParseUint_loop] in H.
    destruct (strconv.is_digit c); [|discriminate].
    destruct (2 ^ 64 / 10 + 1 <=? n)%N; [discriminate|].
    destruct (maxVal <? n * 10 + strconv.digit_val c)%N eqn:E; [discriminate|].
    apply N.ltb_ge in E. now apply (IH _ E).
Qed.

(** A number that [ParseUint] accepts fits the requested size. *)
Lemma ParseUint_bound (s : gostring) (bitSize v : N) :
  strconv.ParseUint s bitSize = Some v -> (v < 2 ^ bitSize)%N.
Proof.
  unfold strconv.ParseUint. destruct s as [|c s]; [discriminate|].
  intros H. apply ParseUint_loop_bound in H; [|lia].
  assert (0 < 2 ^ bitSize)%N by (apply N.neq_0_lt_0, N.pow_nonzero; discriminate).
  lia.
Qed.

(** The branch of the type switch that a decoded record came from. *)
Lemma convert_inversion (rec : rfns.record) (zone : gostring)
    (r : record) :
  convertToLibdnsRecord rec zone = Some r ->
  let typ := strings_ToUpper (rfns.Type_ rec) in
  let data := rfns.Data rec in
  match r with
  | Address _ _ ip =>
      (typ = str "A" \/ typ = str "AAAA") /\ netip_ParseAddr data = Some ip
  | MX _ _ pref target =>
      typ = str "MX" /\
      exists p0, strings.Fields data = [p0; target]
                 /\ strconv.ParseUint p0 16 = Some pref
  | TXT _ _ text => typ = str "TXT" /\ text = data
  | CNAME _ _ target => typ = str "CNAME" /\ target = data
  | NS _ _ target => typ = str "NS" /\ target = data
  | SRV _ _ prio weight port target =>
      typ = str "SRV" /\
      exists p0 p1 p2,
        strings.Fields data = [p0; p1; p2; target]
        /\ strconv.ParseUint p0 16 = Some prio
        /\ strconv.ParseUint p1 16 = Some weight
        /\ strconv.ParseUint p2 16 = Some port
  | CAA _ _ flags tag value =>
      typ = str "CAA" /\
      exists p0, strings.SplitN data space 3 = [p0; tag; value]
                 /\ strconv.ParseUint p0 8 = Some flags
  | ServiceBinding _ _ _ _ _ _ _ => False
  | RR rr => libdns.Type_ rr = rfns.Type_ rec /\ libdns.Data rr = data
  end.
Proof.
  intros H. cbv zeta. unfold convertToLibdnsRecord in H.
  destruct (slice_to (rfns.Name rec) (Z.of_nat (length (rfns.Name rec)) - 1))
    as [name'|]; [|discriminate].
  cbv zeta in H.
  apply (f_equal (fun o => match o with Some v => v | None => r end)) in H.
  cbv beta iota in H. subst r.
  set (typ := strings_ToUpper (rfns.Type_ rec)).
  destruct (streq typ (str "A") || streq typ (str "AAAA")) eqn:EA.
  { apply orb_true_iff in EA. rewrite !streq_eq in EA.
    destruct (netip_ParseAddr (rfns.Data rec)) eqn:P; cbv beta iota delta [fallback]; auto. }
  destruct (streq typ (str "MX")) eqn:EM.
  { apply streq_eq in EM.
    destruct (strings.Fields (rfns.Data rec)) as [|p0 [|p1 [|p2 l]]] eqn:F;
      cbv beta iota delta [fallback]; auto.
    destruct (strconv.ParseUint p0 16) as [pref|] eqn:P; cbv beta iota delta [fallback]; auto.
    split; [exact EM|]. exists p0.
    now rewrite (N.mod_small _ _ (ParseUint_bound _ _ _ P)). }
  destruct (streq typ (str "TXT")) eqn:ET.
  { apply streq_eq in ET. cbv beta iota; auto. }
  destruct (streq typ (str "CNAME")) eqn:EC.
  { apply streq_eq in EC. cbv beta iota; auto. }
  destruct (streq typ (str "NS")) eqn:EN.
  { apply streq_eq in EN. cbv beta iota; auto. }
  destruct (streq typ (str "SRV")) eqn:ES.
  { apply streq_eq in ES.
    destruct (strings.Fields (rfns.Data rec))
      as [|p0 [|p1 [|p2 [|p3 [|p4 l]]]]] eqn:F; cbv beta iota delta [fallback]; auto.
    destruct (strconv.ParseUint p0 16) as [prio|] eqn:P0; cbv beta iota delta [fallback]; auto.
    destruct (strconv.ParseUint p1 16) as [weight|] eqn:P1; cbv beta iota delta [fallback]; auto.
    destruct (strconv.ParseUint p2 16) as [port|] eqn:P2; cbv beta iota delta [fallback]; auto.
    split; [exact ES|]. exists p0, p1, p2.
    now rewrite (N.mod_small _ _ (ParseUint_bound _ _ _ P0)),
      (N.mod_small _ _ (ParseUint_bound _ _ _ P1)),
      (N.mod_small _ _ (ParseUint_bound _ _ _ P2)). }
  destruct (streq typ (str "CAA")) eqn:EK.
  { apply streq_eq in EK.
    destruct (strings.SplitN (rfns.Data rec) space 3)
      as [|p0 [|p1 [|p2 [|p3 l]]]] eqn:F; cbv beta iota delta [fallback]; auto.
    destruct (strconv.ParseUint p0 8) as [flags|] eqn:P; cbv beta iota delta [fallback]; auto.
    split; [exact EK|]. exists p0.
    now rewrite (N.mod_small _ _ (ParseUint_bound _ _ _ P)). }
  cbv beta iota delta [fallback]. auto.
Qed.

(** What a decoded record tells about the provider record it came from:
    the variant is the one of the upper-cased type, its fields are read
    off the data string, a number is the one [ParseUint] read and fits
    its 16 or 8 bits (the conversion never wraps), the fallback keeps
    type and data as they came, and a service binding is never
    produced. *)
Theorem decoded_fields_come_from_data (rec : rfns.record) (zone : gostring)
    (r : record) :
  convertToLibdnsRecord rec zone = Some r ->
  let typ := strings_ToUpper (rfns.Type_ rec) in
  let data := rfns.Data rec in
  match r with
  | Address _ _ ip =>
      (typ = str "A" \/ typ = str "AAAA") /\ netip_ParseAddr data = Some ip
  | MX _ _ pref target =>
      typ = str "MX" /\ (pref < 2 ^ 16)%N /\
      exists p0, strings.Fields data = [p0; target]
                 /\ strconv.ParseUint p0 16 = Some pref
  | TXT _ _ text => typ = str "TXT" /\ text = data
  | CNAME _ _ target => typ = str "CNAME" /\ target = data
  | NS _ _ target => typ = str "NS" /\ target = data
  | SRV _ _ prio weight port target =>
      typ = str "SRV" /\
      (prio < 2 ^ 16)%N /\ (weight < 2 ^ 16)%N /\ (port < 2 ^ 16)%N /\
      exists p0 p1 p2,
        strings.Fields data = [p0; p1; p2; target]
        /\ strconv.ParseUint p0 16 = Some prio
        /\ strconv.ParseUint p1 16 = Some weight
        /\ strconv.ParseUint p2 16 = Some port
  | CAA _ _ flags tag value =>
      typ = str "CAA" /\ (flags < 2 ^ 8)%N /\
      exists p0, strings.SplitN data space 3 = [p0; tag; value]
                 /\ strconv.ParseUint p0 8 = Some flags
  | ServiceBinding _ _ _ _ _ _ _ => False
  | RR rr => libdns.Type_ rr = rfns.Type_ rec /\ libdns.Data rr = data
  end.
Proof.
  intros H. pose proof (convert_inversion rec zone r H) as Hinv.
  cbv zeta in *. destruct r; try exact Hinv.
  - destruct Hinv as (Ht & p0 & Hf & Hp).
    split; [exact Ht|]. split; [exact (ParseUint_bound _ _ _ Hp)|].
    now exists p0.
  - destruct Hinv as (Ht & p0 & p1 & p2 & Hf & H0 & H1 & H2).
    split; [exact Ht|].
    split; [exact (ParseUint_bound _ _ _ H0)|].
    split; [exact (ParseUint_bound _ _ _ H1)|].
    split; [exact (ParseUint_bound _ _ _ H2)|].
    now exists p0, p1, p2.
  - destruct Hinv as (Ht & p0 & Hf & Hp).
    split; [exact Ht|]. split; [exact (ParseUint_bound _ _ _ Hp)|].
    now exists p0.
Qed.

Lemma matches_by_name (zone : gostring) (rr : libdns.RR) (rec : rfns.record) :
  fqdn (rfns.Name rec) zone = fqdn (libdns.Name rr) zone ->
  (upsert_matches zone rr rec = true <-> rfns.Type_ rec = libdns.Type_ rr) /\
  (delete_matches zone rr rec = true
   <-> rfns.Type_ rec = libdns.Type_ rr /\ rfns.Data rec = libdns.Data rr).
Proof.
  intros E. unfold upsert_matches, delete_matches.
  rewrite !andb_true_iff, !streq_eq. tauto.
Qed.

(** A record listed under a name that [fqdn] built from a zone-relative
    name decodes to that relative name, and the decoded record, when
    [RR()] keeps its name (as it does but for an SRV record, whose name
    it builds), normalizes to the listed name again.  So [DeleteRecords]
    finds a listed record from its decoded form whenever the decoder fell
    back to the plain RR, and for TXT, CNAME and NS exactly when the
    provider wrote the type in upper case; [upsertRecord] finds it
    exactly when the types agree. *)
Theorem listed_record_is_found_again (rec : rfns.record) (zone n : gostring) :
  spec.name_ok n zone -> rfns.Name rec = fqdn n zone ->
  exists r,
    convertToLibdnsRecord rec zone = Some r /\
    Name_of r = n /\
    (is_SRV r = false -> libdns.Name (RR_of r) = n) /\
    (libdns.Name (RR_of r) = n ->
     (upsert_matches zone (RR_of r) rec = true
      <-> rfns.Type_ rec = libdns.Type_ (RR_of r)) /\
     match r with
     | RR _ => delete_matches zone (RR_of r) rec = true
     | TXT _ _ _ | CNAME _ _ _ | NS _ _ _ =>
         delete_matches zone (RR_of r) rec = true
         <-> rfns.Type_ rec = strings_ToUpper (rfns.Type_ rec)
     | _ =>
         delete_matches zone (RR_of r) rec = true
         <-> rfns.Type_ rec = libdns.Type_ (RR_of r)
             /\ rfns.Data rec = libdns.Data (RR_of r)
     end).
Proof.
  intros Hn Hname.
  destruct (name_roundtrip _ _ Hn) as (name' & Hslice & Hrel).
  rewrite <- Hname in Hslice.
  destruct (convert_total rec zone name' Hslice) as (r & Hr & Hrn & Hrr).
  rewrite Hrel in Hrn, Hrr. exists r.
  split; [exact Hr|]. split; [exact Hrn|]. split; [exact Hrr|].
  intros Hkeep.
  assert (E : fqdn (rfns.Name rec) zone = fqdn (libdns.Name (RR_of r)) zone).
  { now rewrite Hkeep, Hname, fqdn_twice. }
  destruct (matches_by_name zone (RR_of r) rec E) as [Hu Hd].
  split; [exact Hu|].
  pose proof (convert_inversion rec zone r Hr) as Hinv.
  cbv zeta in Hinv.
  destruct r; try exact Hd.
  - destruct Hinv as [Ht ->]. rewrite Hd. cbn. rewrite Ht. tauto.
  - destruct Hinv as [Ht ->]. rewrite Hd. cbn. rewrite Ht. tauto.
  - destruct Hinv as [Ht ->]. rewrite Hd. cbn. rewrite Ht. tauto.
  - destruct Hinv as [Ht Hdt]. apply Hd. cbn. now rewrite Ht, Hdt.
Qed.

(** The record of the zone apex is listed under the name ["@"], which
    [fqdn] does not take back to the apex: it builds ["@." ++ zone].
    Neither [upsertRecord] nor [DeleteRecords] therefore finds the apex
    record from its decoded form, when [RR()] keeps the name of that
    form (as it does but for an SRV record, whose name it builds). *)
Theorem apex_record_is_not_found_again (rec : rfns.record) (zone : gostring) :
  let z := strings.TrimRight zone dot in
  z <> [] -> z <> str "@" -> strings.TrimSuffix zone [dot] = z ->
  rfns.Name rec = z ++ [dot] ->
  exists r,
    convertToLibdnsRecord rec zone = Some r /\
    Name_of r = str "@" /\
    (is_SRV r = false -> libdns.Name (RR_of r) = str "@") /\
    fqdn (str "@") zone = str "@." ++ z ++ [dot] /\
    fqdn (rfns.Name rec) zone = z ++ [dot] /\
    (libdns.Name (RR_of r) = str "@" ->
     upsert_matches zone (RR_of r) rec = false /\
     delete_matches zone (RR_of r) rec = false).
Proof.
  intros z Hz Hat Hzone Hname.
  assert (Hzd : ends_with_dot z = false) by apply TrimRight_no_dot.
  assert (Hslice : slice_to (rfns.Name rec)
                     (Z.of_nat (length (rfns.Name rec)) - 1) = Some z).
  { rewrite Hname. apply slice_to_snoc. }
  destruct (convert_total rec zone z Hslice) as (r & Hr & Hrn & Hrr).
  assert (Hzone' : zone <> []).
  { intros E. apply Hz. unfold z. now rewrite E. }
  assert (Hrel : RelativeName z zone = str "@").
  { unfold RelativeName. rewrite Hzone. fold z.
    rewrite (TrimSuffix_no_dot _ Hzd).
    change z with ([] ++ z) at 1. rewrite TrimSuffix_app.
    apply streq_neq in Hz, Hzone'. cbn [app]. now rewrite Hz, Hzone'. }
  rewrite Hrel in Hrn, Hrr.
  assert (Hat' : strings.HasSuffix (str "@") z = false).
  { destruct (strings.HasSuffix (str "@") z) eqn:E; [|reflexivity].
    apply HasSuffix_iff in E as [p E].
    destruct p as [|c p].
    - simpl in E. now symmetry in E.
    - destruct p; destruct z; try discriminate; now contradiction Hz. }
  assert (F1 : fqdn (str "@") zone = str "@." ++ z ++ [dot]).
  { unfold fqdn. cbv zeta. fold z.
    change (strings.TrimRight (str "@") dot) with (str "@").
    rewrite Hat'. reflexivity. }
  assert (F2 : fqdn (rfns.Name rec) zone = z ++ [dot]).
  { unfold fqdn. cbv zeta. fold z.
    rewrite Hname, TrimRight_snoc_dot, (TrimRight_fix _ Hzd).
    change z with ([] ++ z) at 1. now rewrite HasSuffix_app. }
  exists r.
  split; [exact Hr|]. split; [exact Hrn|]. split; [exact Hrr|].
  split; [exact F1|]. split; [exact F2|].
  intros Hkeep.
  assert (Hneq : streq (fqdn (rfns.Name rec) zone)
                   (fqdn (libdns.Name (RR_of r)) zone) = false).
  { apply streq_neq. rewrite Hkeep, F1, F2. intros E.
    apply (f_equal (@length ascii)) in E.
    rewrite !length_app in E. simpl in E. lia. }
  split.
  - unfold upsert_matches. now rewrite Hneq.
  - unfold delete_matches. now rewrite Hneq.
Qed.

End Decoding.

(** ** Further properties of the batch operations *)

Section Batches.

Context `{X : Extern} `{C : rfns.Client}.

Lemma GetRecords_loop_ok (zone : gostring) (records : list rfns.record)
    (acc : list record) (s : St) :
  (forall rec, In rec records -> rfns.Name rec <> []) ->
  exists l,
    GetRecords_loop zone records acc s = (Val (acc ++ l), s) /\
    Forall2 (fun rec r => convertToLibdnsRecord rec zone = Some r) records l.
Proof.
  revert acc. induction records as [|rec rest IH]; intros acc H.
  - exists []. split; [now rewrite app_nil_r | constructor].
  - destruct (convertToLibdnsRecord rec zone) as [r|] eqn:E.
    + destruct (IH (acc ++ [r])) as (l & Hl & Hf).
      { intros rec' Hin. apply H. now right. }
      exists (r :: l). split; [|now constructor].
      cbn [GetRecords_loop]. unfold bind, must. rewrite E. unfold ret.
      rewrite Hl. now rewrite <- app_assoc.
    + apply convert_none_iff in E. exfalso. apply (H rec); [now left | exact E].
Qed.

(** [GetRecords] makes one call, the fetch.  When the fetch fails it
    returns no records and the provider's error wrapped with the zone;
    when every fetched record has a name it returns one decoded record
    per fetched record, in the order of the provider. *)
Theorem GetRecords_lists_every_record (zone : gostring) (s : St)
    (records : list rfns.record) (gerr : option rfns.cerr) (w : rfns.World) :
  rfns.GetRecordsByDomain zone (world s) = ((records, gerr), w) ->
  match gerr with
  | Some e =>
      GetRecords zone s
      = (Val ([], Some (Errorf_w (str "failed to get records for zone " ++ zone)
                          (ClientErr e))),
         log s w (rfns.CallGet zone))
  | None =>
      (forall rec, In rec records -> rfns.Name rec <> []) ->
      exists l,
        GetRecords zone s = (Val (l, None), log s w (rfns.CallGet zone)) /\
        Forall2 (fun rec r => convertToLibdnsRecord rec zone = Some r) records l
  end.
Proof.
  intros G. unfold GetRecords, bind, client_GetRecordsByDomain. rewrite G.
  destruct gerr as [e|]; [reflexivity|].
  intros H.
  destruct (GetRecords_loop_ok zone records [] (log s w (rfns.CallGet zone)) H)
    as (l & Hl & Hf).
  exists l. rewrite Hl. split; [reflexivity | exact Hf].
Qed.

(** *** Append *)

Lemma AppendRecords_loop_calls (zone : gostring) (records acc : list record)
    (s : St) :
  exists k,
    (k <= length records)%nat /\
    calls (snd (AppendRecords_loop zone records acc s))
    = calls s ++ map (fun r => rfns.CallCreate (convertFromLibdnsRecord r zone))
                   (firstn k records) /\
    match fst (AppendRecords_loop zone records acc s) with
    | Val (l, None) =>
        k = length records /\ length l = (length acc + length records)%nat
    | Val (l, Some _) => l = []
    | Panic => True
    end.
Proof.
  revert acc s. induction records as [|r rest IH]; intros acc s.
  - exists 0%nat. cbn. rewrite app_nil_r. repeat split; lia.
  - cbn [AppendRecords_loop]. unfold bind, client_CreateRecord.
    destruct (rfns.CreateRecord (convertFromLibdnsRecord r zone) (world s))
      as [[createdRec err] w].
    destruct err as [e|].
    + exists 1%nat. cbn. repeat split; lia.
    + unfold must.
      destruct (convertToLibdnsRecord createdRec zone) as [cr|].
      * unfold ret.
        destruct (IH (acc ++ [cr])
                    (log s w (rfns.CallCreate (convertFromLibdnsRecord r zone))))
          as (k & Hk & Hc & Hr).
        exists (S k). split; [cbn; lia|]. split.
        -- rewrite Hc. cbn. now rewrite <- app_assoc.
        -- destruct (fst (AppendRecords_loop zone rest (acc ++ [cr])
                            (log s w (rfns.CallCreate
                                        (convertFromLibdnsRecord r zone)))))
             as [[l [e|]]|]; auto.
           destruct Hr as [Hk' Hl]. rewrite length_app in Hl. cbn in *.
           split; lia.
      * exists 1%nat. cbn. repeat split; lia.
Qed.

(** [AppendRecords] never fetches, updates or deletes: its calls are the
    creates of the encoded input records, in order, up to the record it
    stopped at.  When it succeeds every input record was created and it
    returns one record per input record; with an error it returns no
    records. *)
Theorem AppendRecords_only_creates (zone : gostring) (records : list record)
    (s : St) :
  exists k,
    (k <= length records)%nat /\
    calls (snd (AppendRecords zone records s))
    = calls s ++ map (fun r => rfns.CallCreate (convertFromLibdnsRecord r zone))
                   (firstn k records) /\
    match fst (AppendRecords zone records s) with
    | Val (l, None) => k = length records /\ length l = length records
    | Val (l, Some _) => l = []
    | Panic => True
    end.
Proof.
  unfold AppendRecords.
  destruct (AppendRecords_loop_calls zone records [] s) as (k & Hk & Hc & Hr).
  exists k. split; [exact Hk|]. split; [exact Hc|].
  destruct (fst (AppendRecords_loop zone records [] s)) as [[l [e|]]|]; auto.
Qed.

Lemma AppendRecords_loop_acc (zone : gostring) (records acc : list record)
    (s : St) :
  AppendRecords_loop zone records acc s
  = match AppendRecords_loop zone records [] s with
    | (Val (l, None), s') => (Val (acc ++ l, None), s')
    | other => other
    end.
Proof.
  revert acc s. induction records as [|r rest IH]; intros acc s.
  - cbn. unfold ret. now rewrite app_nil_r.
  - cbn [AppendRecords_loop]. unfold bind, client_CreateRecord.
    destruct (rfns.CreateRecord (convertFromLibdnsRecord r zone) (world s))
      as [[createdRec err] w].
    destruct err as [e|]; [reflexivity|].
    unfold must. destruct (convertToLibdnsRecord createdRec zone) as [cr|];
      [|reflexivity].
    unfold ret. rewrite (IH (acc ++ [cr])), (IH ([] ++ [cr])).
    destruct (AppendRecords_loop zone rest []
                (log s w (rfns.CallCreate (convertFromLibdnsRecord r zone))))
      as [[[l [e|]]|] s']; try reflexivity.
    now rewrite <- app_assoc.
Qed.

Lemma AppendRecords_loop_split (zone : gostring) (l1 l2 acc : list record)
    (s : St) :
  AppendRecords_loop zone (l1 ++ l2) acc s
  = match AppendRecords_loop zone l1 acc s with
    | (Val (a1, None), s1) => AppendRecords_loop zone l2 a1 s1
    | other => other
    end.
Proof.
  revert acc s. induction l1 as [|r l1 IH]; intros acc s; [reflexivity|].
  cbn [app AppendRecords_loop]. unfold bind, client_CreateRecord.
  destruct (rfns.CreateRecord (convertFromLibdnsRecord r zone) (world s))
    as [[createdRec err] w].
  destruct err as [e|]; [reflexivity|].
  unfold must. destruct (convertToLibdnsRecord createdRec zone) as [cr|];
    [|reflexivity].
  unfold ret. apply IH.
Qed.

(** Appending a batch is appending its first part and then its second
    part: same calls, same provider state, the results one after the
    other; a failure of the first part is the failure of the batch. *)
Theorem AppendRecords_splits (zone : gostring) (l1 l2 : list record) (s : St) :
  AppendRecords zone (l1 ++ l2) s
  = match AppendRecords zone l1 s with
    | (Val (a1, None), s1) =>
        match AppendRecords zone l2 s1 with
        | (Val (a2, None), s2) => (Val (a1 ++ a2, None), s2)
        | other => other
        end
    | other => other
    end.
Proof.
  unfold AppendRecords. rewrite AppendRecords_loop_split.
  destruct (AppendRecords_loop zone l1 [] s) as [[[a1 [e|]]|] s1];
    try reflexivity.
  apply AppendRecords_loop_acc.
Qed.

(** *** Set *)

Lemma upsertRecord_cases (r : record) (zone : gostring) (s : St) :
  let u := upsert_update_rec r zone in
  exists new,
    calls (snd (upsertRecord r zone s)) = calls s ++ new /\
    ((new = [rfns.CallGet zone]
      /\ exists e, fst (upsertRecord r zone s) = Val (None, Some e)) \/
     (exists id resp err,
         new = [rfns.CallGet zone; rfns.CallUpdate id u]
         /\ fst (upsertRecord r zone s) = Val (Some resp, err)) \/
     (exists resp err,
         new = [rfns.CallGet zone; rfns.CallCreate u]
         /\ fst (upsertRecord r zone s) = Val (Some resp, err))).
Proof.
  cbv zeta. unfold upsertRecord, bind, client_GetRecordsByDomain.
  destruct (rfns.GetRecordsByDomain zone (world s)) as [[records gerr] w1].
  destruct gerr as [e|].
  - exists [rfns.CallGet zone]. split; [reflexivity|]. left.
    split; [reflexivity | now exists e].
  - rewrite upsert_loop_find.
    destruct (find (upsert_matches zone (RR_of r)) records) as [c|].
    + unfold update_with. cbn [log world calls].
      destruct (rfns.UpdateRecordById (rfns.ID c) (upsert_update_rec r zone) w1)
        as [[resp err] w2].
      eexists. split; [cbn; rewrite <- app_assoc; reflexivity|].
      right. left. now exists (rfns.ID c), resp, err.
    + unfold create_with. cbn [log world calls].
      destruct (rfns.CreateRecord (upsert_update_rec r zone) w1)
        as [[resp err] w2].
      eexists. split; [cbn; rewrite <- app_assoc; reflexivity|].
      right. right. now exists resp, err.
Qed.

Lemma SetRecords_loop_cons (zone : gostring) (r : record)
    (rest acc : list record) (s : St) :
  SetRecords_loop zone (r :: rest) acc s
  = match upsertRecord r zone s with
    | (Val (_, Some e), s') =>
        (Val ([], Some (Errorf_w
                          (str "failed to update record "
                             ++ libdns.Name (RR_of r))
                          (ClientErr e))), s')
    | (Val (Some u, None), s') =>
        match convertToLibdnsRecord u zone with
        | Some ur => SetRecords_loop zone rest (acc ++ [ur]) s'
        | None => (Panic, s')
        end
    | (Val (None, None), s') => (Panic, s')
    | (Panic, s') => (Panic, s')
    end.
Proof.
  cbn [SetRecords_loop]. unfold bind.
  destruct (upsertRecord r zone s) as [[[[u|] [e|]]|] s']; try reflexivity.
  unfold must, ret. now destruct (convertToLibdnsRecord u zone).
Qed.

Lemma SetRecords_loop_calls (zone : gostring) (all records acc : list record)
    (s : St) :
  incl records all ->
  exists new,
    calls (snd (SetRecords_loop zone records acc s)) = calls s ++ new /\
    Forall (set_call zone all) new /\
    match fst (SetRecords_loop zone records acc s) with
    | Val (l, None) =>
        length l = (length acc + length records)%nat
        /\ length new = (2 * length records)%nat
    | Val (l, Some _) => l = []
    | Panic => True
    end.
Proof.
  revert acc s. induction records as [|r rest IH]; intros acc s Hincl.
  - exists []. cbn. rewrite app_nil_r. repeat split; auto; lia.
  - assert (Hr : In r all) by (apply Hincl; now left).
    assert (Hrest : incl rest all) by (intros x Hx; apply Hincl; now right).
    assert (Hg : set_call zone all (rfns.CallGet zone)) by reflexivity.
    assert (Hu : forall id,
               set_call zone all (rfns.CallUpdate id (upsert_update_rec r zone)))
      by (intros id; now exists r).
    assert (Hk : set_call zone all (rfns.CallCreate (upsert_update_rec r zone)))
      by now exists r.
    rewrite SetRecords_loop_cons.
    destruct (upsertRecord_cases r zone s) as (new & Hc & Hcases).
    assert (Hf : Forall (set_call zone all) new).
    { destruct Hcases as [[-> _]|[(id & resp & err' & -> & _)
                                 |(resp & err' & -> & _)]];
        repeat (constructor; auto). }
    destruct (upsertRecord r zone s) as [[[[u|] [e|]]|] s'] eqn:U;
      cbn [fst snd] in *;
      try (exists new; cbn; repeat split; auto; fail).
    assert (Hlen : length new = 2%nat).
    { destruct Hcases as [[_ [e He]]|[(id & resp & err' & -> & _)
                                     |(resp & err' & -> & _)]];
        [discriminate He | reflexivity | reflexivity]. }
    destruct (convertToLibdnsRecord u zone) as [ur|].
    + destruct (IH (acc ++ [ur]) s' Hrest) as (new' & Hc' & Hf' & Hr').
      exists (new ++ new'). split; [|split].
      * rewrite Hc', Hc. now rewrite <- app_assoc.
      * apply Forall_app. now split.
      * destruct (fst (SetRecords_loop zone rest (acc ++ [ur]) s'))
          as [[l [e|]]|]; auto.
        destruct Hr' as [Hl Hn]. rewrite !length_app in *. cbn in *.
        split; lia.
    + exists new. cbn. repeat split; auto.
Qed.

(** [SetRecords] never deletes: every call is a fetch of the zone, or an
    update or a create of the provider record of an input record.  When
    it succeeds it has made two calls per input record (the zone is
    fetched anew for each one) and returns one record per input record;
    with an error it returns no records. *)
Theorem SetRecords_never_deletes (zone : gostring) (records : list record)
    (s : St) :
  exists new,
    calls (snd (SetRecords zone records s)) = calls s ++ new /\
    Forall (set_call zone records) new /\
    match fst (SetRecords zone records s) with
    | Val (l, None) =>
        length l = length records /\ length new = (2 * length records)%nat
    | Val (l, Some _) => l = []
    | Panic => True
    end.
Proof.
  unfold SetRecords.
  destruct (SetRecords_loop_calls zone records records [] s (incl_refl _))
    as (new & Hc & Hf & Hr).
  exists new. split; [exact Hc|]. split; [exact Hf|].
  destruct (fst (SetRecords_loop zone records [] s)) as [[l [e|]]|]; auto.
Qed.

(** A record that is in the zone under the name and type that
    [upsertRecord] sends is updated, not created again: the fetched list
    then has a first record that satisfies the condition, and the calls
    are the fetch and the update of that record. *)
Theorem upsert_updates_sent_record (r : record) (zone : gostring) (s : St)
    (records : list rfns.record) (w1 : rfns.World) :
  rfns.GetRecordsByDomain zone (world s) = ((records, None), w1) ->
  (exists rec, In rec records
               /\ rfns.Name rec = rfns.Name (upsert_update_rec r zone)
               /\ rfns.Type_ rec = rfns.Type_ (upsert_update_rec r zone)) ->
  exists c,
    In c records /\ upsert_matches zone (RR_of r) c = true /\
    calls (snd (upsertRecord r zone s))
    = calls s ++ [rfns.CallGet zone;
                  rfns.CallUpdate (rfns.ID c) (upsert_update_rec r zone)].
Proof.
  intros G (rec & Hin & Hn & Ht).
  destruct (upsert_update_rec_fields r zone) as (_ & Hn1 & _ & Ht1 & _).
  assert (Hm : upsert_matches zone (RR_of r) rec = true).
  { apply upsert_matches_iff. rewrite Hn, Hn1, Ht, Ht1.
    split; [apply fqdn_twice | reflexivity]. }
  destruct (find (upsert_matches zone (RR_of r)) records) as [c|] eqn:F.
  - exists c. apply find_some in F as F'. destruct F' as [Hc Hmc].
    split; [exact Hc|]. split; [exact Hmc|].
    unfold upsertRecord, bind, client_GetRecordsByDomain. rewrite G.
    rewrite upsert_loop_find, F. unfold update_with. cbn [log world calls].
    destruct (rfns.UpdateRecordById (rfns.ID c) (upsert_update_rec r zone) w1)
      as [[resp err] w2].
    cbn. now rewrite <- app_assoc.
  - apply find_none with (x := rec) in F; [congruence | exact Hin].
Qed.

(** *** Delete *)

Lemma SetRecords_loop_split (zone : gostring) (l1 l2 acc : list record)
    (s : St) :
  SetRecords_loop zone (l1 ++ l2) acc s
  = match SetRecords_loop zone l1 acc s with
    | (Val (a1, None), s1) => SetRecords_loop zone l2 a1 s1
    | other => other
    end.
Proof.
  revert acc s. induction l1 as [|r l1 IH]; intros acc s; [reflexivity|].
  cbn [app]. rewrite !SetRecords_loop_cons.
  destruct (upsertRecord r zone s) as [[[[u|] [e|]]|] s']; try reflexivity.
  destruct (convertToLibdnsRecord u zone) as [ur|]; [apply IH | reflexivity].
Qed.

Lemma SetRecords_loop_acc (zone : gostring) (records acc : list record)
    (s : St) :
  SetRecords_loop zone records acc s
  = match SetRecords_loop zone records [] s with
    | (Val (l, None), s') => (Val (acc ++ l, None), s')
    | other => other
    end.
Proof.
  revert acc s. induction records as [|r rest IH]; intros acc s.
  - cbn. unfold ret. now rewrite app_nil_r.
  - rewrite !SetRecords_loop_cons.
    destruct (upsertRecord r zone s) as [[[[u|] [e|]]|] s']; try reflexivity.
    destruct (convertToLibdnsRecord u zone) as [ur|]; [|reflexivity].
    rewrite (IH (acc ++ [ur])), (IH ([] ++ [ur])).
    destruct (SetRecords_loop zone rest [] s') as [[[l [e|]]|] s''];
      try reflexivity.
    now rewrite <- app_assoc.
Qed.

(** Setting a batch is setting its first part and then its second part:
    same calls, same provider state, the results one after the other; a
    failure of the first part is the failure of the batch. *)
Theorem SetRecords_splits (zone : gostring) (l1 l2 : list record) (s : St) :
  SetRecords zone (l1 ++ l2) s
  = match SetRecords zone l1 s with
    | (Val (a1, None), s1) =>
        match SetRecords zone l2 s1 with
        | (Val (a2, None), s2) => (Val (a1 ++ a2, None), s2)
        | other => other
        end
    | other => other
    end.
Proof.
  unfold SetRecords. rewrite SetRecords_loop_split.
  destruct (SetRecords_loop zone l1 [] s) as [[[a1 [e|]]|] s1];
    try reflexivity.
  apply SetRecords_loop_acc.
Qed.

(** *** Delete *)

Lemma find_rrid_picked (zone : gostring) (all : list rfns.record) (r : record) :
  find_rrid zone (RR_of r) all <> 0%Z -> picked zone all r.
Proof.
  intros H. unfold picked. rewrite find_rrid_find in *.
  destruct (find (delete_matches zone (RR_of r)) all) as [c|] eqn:F;
    [|now contradiction H].
  apply find_some in F as [Hin Hm]. now exists c.
Qed.

Lemma DeleteRecords_loop_calls (zone : gostring) (all : list rfns.record)
    (records acc : list record) (s : St) :
  exists k,
    (k <= length records)%nat /\
    calls (snd (DeleteRecords_loop zone all records acc s))
    = calls s ++ map (fun r => rfns.CallDelete (find_rrid zone (RR_of r) all))
                   (firstn k records) /\
    Forall (picked zone all) (firstn k records) /\
    match fst (DeleteRecords_loop zone all records acc s) with
    | Val (l, None) => k = length records /\ l = acc ++ records
    | Val (l, Some _) => l = []
    | Panic => False
    end.
Proof.
  revert acc s. induction records as [|r rest IH]; intros acc s.
  - exists 0%nat. cbn. rewrite !app_nil_r. repeat split; auto.
  - rewrite DeleteRecords_loop_cons.
    destruct (Z.eqb_spec (find_rrid zone (RR_of r) all) 0) as [E|E].
    + exists 0%nat. cbn. rewrite app_nil_r. repeat split; auto; lia.
    + unfold delete_step.
      destruct (rfns.DeleteRecord (find_rrid zone (RR_of r) all) (world s))
        as [[e|] w].
      * exists 1%nat. cbn. repeat split; auto; try lia.
        constructor; [now apply find_rrid_picked | constructor].
      * destruct (IH (acc ++ [r])
                    (log s w (rfns.CallDelete (find_rrid zone (RR_of r) all))))
          as (k & Hk & Hc & Hp & Hr).
        exists (S k). split; [cbn; lia|]. split; [|split].
        -- rewrite Hc. cbn. now rewrite <- app_assoc.
        -- cbn. constructor; [now apply find_rrid_picked | exact Hp].
        -- destruct (fst (DeleteRecords_loop zone all rest (acc ++ [r])
                            (log s w (rfns.CallDelete
                                        (find_rrid zone (RR_of r) all)))))
             as [[l [e|]]|]; auto.
           destruct Hr as [-> ->]. split; [reflexivity|].
           now rewrite <- app_assoc.
Qed.


(** A record that is in the zone as [convertFromLibdnsRecord] sends it
    (same name, type and data) is found by [DeleteRecords], provided the
    fetched records have non-zero IDs: the ID looked up is that of a
    fetched record that matches, and no not-found error arises. *)
Theorem delete_finds_sent_record (r : record) (zone : gostring)
    (all : list rfns.record) (rest acc : list record) (s : St) :
  (forall rec, In rec all -> rfns.ID rec <> 0%Z) ->
  (exists rec, In rec all
               /\ rfns.Name rec = rfns.Name (convertFromLibdnsRecord r zone)
               /\ rfns.Type_ rec = rfns.Type_ (convertFromLibdnsRecord r zone)
               /\ rfns.Data rec = rfns.Data (convertFromLibdnsRecord r zone)) ->
  picked zone all r /\
  DeleteRecords_loop zone all (r :: rest) acc s
  = delete_step zone all r rest acc (find_rrid zone (RR_of r) all) s.
Proof.
  intros Hid (rec & Hin & Hn & Ht & Hd).
  destruct (upsert_update_rec_fields r zone)
    as (_ & _ & Hn2 & _ & Ht2 & _ & Hd2 & _).
  assert (Hm : delete_matches zone (RR_of r) rec = true).
  { apply delete_matches_iff. rewrite Hn, Hn2, Ht, Ht2, Hd, Hd2.
    split; [apply fqdn_twice | split; reflexivity]. }
  assert (Hne : find_rrid zone (RR_of r) all <> 0%Z).
  { rewrite find_rrid_find.
    destruct (find (delete_matches zone (RR_of r)) all) as [c|] eqn:F.
    - apply find_some in F as [Hc _]. now apply Hid.
    - apply find_none with (x := rec) in F; [congruence | exact Hin]. }
  split; [now apply find_rrid_picked|].
  rewrite DeleteRecords_loop_cons.
  now destruct (Z.eqb_spec (find_rrid zone (RR_of r) all) 0).
Qed.

End Batches.

(** ** The earlier revision *)

Section Earlier.

Context `{X : Extern} `{C : rfns.Client}.

Lemma FormatInt_nonempty (i : Z) : strconv.FormatInt i <> [].
Proof.
  unfold strconv.FormatInt. destruct (i <? 0)%Z; [discriminate|].
  apply FormatUint_nonempty.
Qed.

Lemma find_ext_bool {A : Type} (p q : A -> bool) (l : list A) :
  (forall a, p a = q a) -> find p l = find q l.
Proof.
  intros H. induction l as [|a l IH]; simpl; [reflexivity|].
  now rewrite H, IH.
Qed.

Lemma legacy_find_rrid_find (zone : gostring) (old : Legacy.record)
    (all : list rfns.record) :
  LegacyProvider.find_rrid zone old all
  = match find (Legacy.delete_matches zone old) all with
    | Some c => rfns.ID c
    | None => 0%Z
    end.
Proof.
  induction all as [|rec rest IH]; simpl; [reflexivity|].
  now destruct (Legacy.delete_matches zone old rec).
Qed.

(** For a record without an ID the earlier revision chooses as the current
    one does: no fetched record has the empty string for its ID, so the
    earlier conditions come down to the comparison of name and type (and
    data), and both revisions pick the same fetched record. *)
Theorem earlier_matcher_without_id (zone : gostring) (old : Legacy.record)
    (records : list rfns.record) :
  Legacy.ID old = [] ->
  let rr := libdns.mkRR (Legacy.Name old) (Legacy.TTL old) (Legacy.Type_ old)
              (Legacy.Value old) in
  (forall rec, Legacy.upsert_matches zone old rec = upsert_matches zone rr rec) /\
  (forall rec, Legacy.delete_matches zone old rec = delete_matches zone rr rec) /\
  find (Legacy.upsert_matches zone old) records
  = find (upsert_matches zone rr) records /\
  LegacyProvider.find_rrid zone old records = find_rrid zone rr records.
Proof.
  intros Hid rr.
  assert (Hno : forall rec,
             streq (strconv.FormatInt (rfns.ID rec)) (Legacy.ID old) = false).
  { intros rec. apply streq_neq. rewrite Hid. apply FormatInt_nonempty. }
  assert (Hu : forall rec,
             Legacy.upsert_matches zone old rec = upsert_matches zone rr rec).
  { intros rec. unfold Legacy.upsert_matches. now rewrite Hno. }
  assert (Hd : forall rec,
             Legacy.delete_matches zone old rec = delete_matches zone rr rec).
  { intros rec. unfold Legacy.delete_matches. now rewrite Hno. }
  split; [exact Hu|]. split; [exact Hd|]. split.
  - now apply find_ext_bool.
  - rewrite legacy_find_rrid_find, find_rrid_find.
    now rewrite (find_ext_bool _ _ records Hd).
Qed.


(** The earlier [upsertRecord] follows the ID: when the first fetched
    record that satisfies its condition is one with the desired ID, that
    record is updated, under whatever name it is stored, and the record
    sent always carries a priority. *)
Theorem earlier_upsert_follows_id (old : Legacy.record) (zone : gostring)
    (s : St) (l1 l2 : list rfns.record) (c : rfns.record) (w1 : rfns.World) :
  rfns.GetRecordsByDomain zone (world s) = ((l1 ++ c :: l2, None), w1) ->
  (forall rec, In rec l1 -> Legacy.upsert_matches zone old rec = false) ->
  Legacy.ID old = strconv.FormatInt (rfns.ID c) ->
  calls (snd (LegacyProvider.upsertRecord old zone s))
  = calls s ++ [rfns.CallGet zone;
                rfns.CallUpdate (rfns.ID c) (LegacyProvider.update_rec old zone)]
  /\ rfns.Priority (LegacyProvider.update_rec old zone)
     = Some (Legacy.Priority old).
Proof.
  intros G H1 Hid. split; [|reflexivity].
  unfold LegacyProvider.upsertRecord, bind, client_GetRecordsByDomain.
  rewrite G. clear G.
  assert (Hc : Legacy.upsert_matches zone old c = true).
  { unfold Legacy.upsert_matches. now rewrite Hid, streq_refl. }
  assert (Hl : forall s0 : St,
             calls (snd (LegacyProvider.upsert_loop zone old (l1 ++ c :: l2) s0))
             = calls s0 ++ [rfns.CallUpdate (rfns.ID c)
                              (LegacyProvider.update_rec old zone)]).
  { induction l1 as [|a l1 IH]; intros s0.
    - cbn [app LegacyProvider.upsert_loop]. rewrite Hc.
      unfold bind, client_UpdateRecordById.
      now destruct (rfns.UpdateRecordById (rfns.ID c)
                      (LegacyProvider.update_rec old zone) (world s0))
        as [[resp err] w].
    - cbn [app LegacyProvider.upsert_loop]. rewrite (H1 a) by now left.
      apply IH. intros rec Hin. apply H1. now right. }
  rewrite Hl. cbn [log calls]. now rewrite <- app_assoc.
Qed.

End Earlier.

(** ** The type switch and the case of the type *)

Section TypeCase.

Context `{X : Extern}.

Ltac leaf :=
  cbv beta iota delta [fallback];
  cbn [libdns.Name libdns.TTL libdns.Type_ libdns.Data];
  solve [reflexivity | repeat split; congruence].

(** Two provider records that differ only in the ASCII case of their type
    decode alike: to the same typed record, or both to the fallback, the
    plain RR that keeps for each the type as it was written. *)
Theorem decode_ignores_case_of_type (rec1 rec2 : rfns.record) (zone : gostring) :
  rfns.Name rec2 = rfns.Name rec1 ->
  rfns.Data rec2 = rfns.Data rec1 ->
  rfns.TTL rec2 = rfns.TTL rec1 ->
  strings.isASCII (rfns.Type_ rec1) = true ->
  strings.isASCII (rfns.Type_ rec2) = true ->
  map strings.upper_byte (rfns.Type_ rec2)
  = map strings.upper_byte (rfns.Type_ rec1) ->
  match convertToLibdnsRecord rec1 zone, convertToLibdnsRecord rec2 zone with
  | Some (RR rr1), Some (RR rr2) =>
      libdns.Name rr1 = libdns.Name rr2 /\ libdns.TTL rr1 = libdns.TTL rr2 /\
      libdns.Data rr1 = libdns.Data rr2 /\
      libdns.Type_ rr1 = rfns.Type_ rec1 /\ libdns.Type_ rr2 = rfns.Type_ rec2
  | Some r1, Some r2 => r1 = r2
  | None, None => True
  | _, _ => False
  end.
Proof.
  intros Hn Hd Ht A1 A2 Hu.
  assert (HT : strings_ToUpper (rfns.Type_ rec2)
               = strings_ToUpper (rfns.Type_ rec1)).
  { unfold strings_ToUpper. now rewrite A1, A2. }
  unfold convertToLibdnsRecord. rewrite Hn, Hd, Ht, HT.
  destruct (slice_to (rfns.Name rec1) (Z.of_nat (length (rfns.Name rec1)) - 1))
    as [name'|]; [|exact I].
  cbv zeta. unfold fallback. rewrite Hd.
  set (typ := strings_ToUpper (rfns.Type_ rec1)).
  destruct (streq typ (str "A") || streq typ (str "AAAA")).
  { destruct (netip_ParseAddr (rfns.Data rec1)); leaf. }
  destruct (streq typ (str "MX")).
  { destruct (strings.Fields (rfns.Data rec1)) as [|p0 [|p1 [|p2 l]]];
      try leaf.
    destruct (strconv.ParseUint p0 16); leaf. }
  destruct (streq typ (str "TXT")); [leaf|].
  destruct (streq typ (str "CNAME")); [leaf|].
  destruct (streq typ (str "NS")); [leaf|].
  destruct (streq typ (str "SRV")).
  { destruct (strings.Fields (rfns.Data rec1))
      as [|p0 [|p1 [|p2 [|p3 [|p4 l]]]]]; try leaf.
    destruct (strconv.ParseUint p0 16); [|leaf].
    destruct (strconv.ParseUint p1 16); [|leaf].
    destruct (strconv.ParseUint p2 16); leaf. }
  destruct (streq typ (str "CAA")).
  { destruct (strings.SplitN (rfns.Data rec1) space 3)
      as [|p0 [|p1 [|p2 [|p3 l]]]]; try leaf.
    destruct (strconv.ParseUint p0 8); leaf. }
  leaf.
Qed.

End TypeCase.
(** ** The theorems at work on the in-memory provider *)

Import Sim.

Lemma Sim_Seconds_exact : spec.Seconds_exact.
Proof.
  intros k _. cbn [Duration_Seconds_int extern].
  apply Z.quot_mul. discriminate.
Qed.

Lemma Sim_ttl_ok (n : Z) : (0 <= n < 1000000)%Z -> spec.ttl_ok (seconds n).
Proof.
  intros H. exists n. split; [reflexivity|]. unfold seconds, Second. lia.
Qed.

Lemma Sim_well_formed :
  spec.well_formed srv zone /\ spec.well_formed mx zone /\
  spec.well_formed caa zone /\ spec.well_formed www1 zone.
Proof.
  assert (Hn : forall n, n = str "_sip._tcp" \/ n = str "host" \/ n = str "www" ->
                         spec.name_ok n zone).
  { intros n [-> | [-> | ->]]; repeat split; solve [discriminate | reflexivity]. }
  assert (Ht : spec.ttl_ok (seconds 300)) by (apply Sim_ttl_ok; lia).
  split; [|split; [|split]].
  - split; [apply Hn; now left|]. split; [exact Ht|]. repeat split; reflexivity.
  - split; [apply Hn; right; now left|]. split; [exact Ht|].
    split; reflexivity.
  - split; [apply Hn; right; now left|]. split; [exact Ht|].
    split; reflexivity.
  - split; [apply Hn; right; now right|]. split; [exact Ht|]. reflexivity.
Qed.



(** C2, as stated, fails twice: a record with an empty name makes the
    decoder panic, and the CAA data ["0  issue"], which has two
    white-space fields, is split at its two spaces and decodes to a CAA
    record with an empty tag. *)
Lemma decode_panics_and_keeps_short_CAA :
  convertToLibdnsRecord (rfns.mkRecord 5 [] (str "MX") (str "bad") 300 None) zone
  = None /\
  strings.Fields (str "0  issue") = [str "0"; str "issue"] /\
  convertToLibdnsRecord
    (rfns.mkRecord 6 (str "host.example.com.") (str "CAA") (str "0  issue")
       300 None) zone
  = Some (CAA (str "host") (seconds 300) 0 [] (str "issue")).
Proof. repeat split; vm_compute; reflexivity. Qed.

Lemma malformed_decodes_to_raw_witness :
  let rec :=
    rfns.mkRecord 7 (str "host.example.com.") (str "srv") (str "10 x 443 sip")
      300 None in
  rfns.Name rec <> [] /\
  spec.Malformed (strings_ToUpper (rfns.Type_ rec)) (rfns.Data rec) /\
  exists relName ttl,
    convertToLibdnsRecord rec zone
    = Some (RR (libdns.mkRR relName ttl (str "srv") (str "10 x 443 sip"))).
Proof.
  cbv zeta.
  assert (Hne : str "host.example.com." <> []) by discriminate.
  assert (Hm : spec.Malformed (str "SRV") (str "10 x 443 sip")).
  { apply spec.Mal_SRV_number
      with (p0 := str "10") (p1 := str "x") (p2 := str "443") (p3 := str "sip").
    - reflexivity.
    - right. left. right. reflexivity. }
  split; [exact Hne|]. split; [exact Hm|].
  exact (proj2 (malformed_decodes_to_raw
                  (rfns.mkRecord 7 (str "host.example.com.") (str "srv")
                     (str "10 x 443 sip") 300 None) zone Hne) Hm).
Defined.

Lemma upsertRecord_reconciles_witness :
  (* no record of the name: create *)
  upsertRecord www1 zone (start empty)
  = (Val (Some (rfns.with_ID 1 (upsert_update_rec www1 zone)), None),
     mkSt (mkProvider [rfns.with_ID 1 (upsert_update_rec www1 zone)] 2 [] [])
       [rfns.CallGet zone; rfns.CallCreate (upsert_update_rec www1 zone)]) /\
  upsert_update_rec www1 zone
  = rfns.mkRecord 0 (str "www.example.com.") (str "A") (str "10.0.0.1") 300 None /\
  (* two records of the name and type: update of the first *)
  fst (upsertRecord www2 zone (start w0))
  = Val (Some (rfns.with_ID 1 (upsert_update_rec www2 zone)), None) /\
  calls (snd (upsertRecord www2 zone (start w0)))
  = [rfns.CallGet zone; rfns.CallUpdate 1 (upsert_update_rec www2 zone)] /\
  (* an SRV record is sent without the priority of its encoding *)
  calls (snd (upsertRecord srv zone (start empty)))
  = [rfns.CallGet zone;
     rfns.CallCreate
       (rfns.mkRecord 0 (str "_sip._tcp.example.com.") (str "SRV")
          (str "10 20 5060 sip.example.com") 300 None)] /\
  convertFromLibdnsRecord srv zone
  = rfns.mkRecord 0 (str "_sip._tcp.example.com.") (str "SRV")
      (str "10 20 5060 sip.example.com") 300 (Some 10%Z).
Proof.
  pose proof (upsertRecord_reconciles www1 zone (start empty)) as H1.
  pose proof (upsertRecord_reconciles www2 zone (start w0)) as H2.
  pose proof (upsertRecord_reconciles srv zone (start empty)) as H3.
  cbv zeta in H1, H2, H3.
  destruct H1 as [[F1 _] [_ H1]]. destruct H2 as [_ [_ H2]].
  destruct H3 as [(F3 & E3 & _) [_ H3]].
  rewrite H1, H2, H3, F1, E3. repeat split; vm_compute; reflexivity.
Defined.

Lemma first_match_in_list_order_witness :
  let twin := rfns.with_ID 9 rec_www3 in
  (forall update_rec s,
      upsert_loop zone (RR_of www2) update_rec [rec_mail; rec_www1; rec_www3] s
      = update_with rec_www1 update_rec s) /\
  find_rrid zone (RR_of www2) [rec_mail; rec_www1; rec_www3; twin] = 3%Z.
Proof.
  cbv zeta. split.
  - apply (proj1 (first_match_in_list_order zone (RR_of www2)
                    [rec_mail] [rec_www3] rec_www1)).
    + intros rec [<- | []]. vm_compute; reflexivity.
    + vm_compute; reflexivity.
  - apply (proj2 (first_match_in_list_order zone (RR_of www2)
                    [rec_mail; rec_www1] [rfns.with_ID 9 rec_www3] rec_www3)).
    + intros rec [<- | [<- | []]]; vm_compute; reflexivity.
    + vm_compute; reflexivity.
Defined.

(** C8, as stated, fails.  The desired record is the one that
    [GetRecords] lists for the record 7, the TXT record of the zone apex,
    so its ID is known and the fetched record 7 has it.  The typed record
    has no field for the ID, both conditions compare the names, [@] and
    the apex, and reject the record: [SetRecords] creates a second
    record instead of updating the record 7, and [DeleteRecords] reports
    that it is not found.  The same holds for the record 8, whose type
    the provider wrote in lower case.  The earlier revision, which
    compared the IDs first, matched both. *)
Lemma matcher_has_no_id_rule :
  let apex := rfns.mkRecord 7 (str "example.com.") (str "TXT")
                (str "v=spf1 -all") 300 None in
  let lower := rfns.mkRecord 8 (str "www.example.com.") (str "txt")
                 (str "hello") 300 None in
  let w := mkProvider [apex; lower] 9 [] [] in
  let desired := txt "@" "v=spf1 -all" in
  let desired' := txt "www" "hello" in
  GetRecords zone (start w)
  = (Val ([desired; desired'], None), mkSt w [rfns.CallGet zone]) /\
  (upsert_matches zone (RR_of desired) apex = false /\
   delete_matches zone (RR_of desired) apex = false /\
   upsert_matches zone (RR_of desired') lower = false /\
   delete_matches zone (RR_of desired') lower = false) /\
  calls (snd (SetRecords zone [desired] (start w)))
  = [rfns.CallGet zone; rfns.CallCreate (upsert_update_rec desired zone)] /\
  DeleteRecords zone [desired] (start w)
  = (Val ([], Some (Errorf (not_found_msg (RR_of desired)))),
     mkSt w [rfns.CallGet zone]) /\
  (exists old old',
      LegacyProvider.listed apex zone = Some old /\
      LegacyProvider.listed lower zone = Some old' /\
      Legacy.ID old = str "7" /\ Legacy.ID old' = str "8" /\
      Legacy.upsert_matches zone old apex = true /\
      Legacy.delete_matches zone old apex = true /\
      Legacy.upsert_matches zone old' lower = true /\
      Legacy.delete_matches zone old' lower = true).
Proof.
  cbv zeta. split; [vm_compute; reflexivity|].
  split; [repeat split; vm_compute; reflexivity|].
  split; [vm_compute; reflexivity|].
  split; [vm_compute; reflexivity|].
  eexists. eexists. split; [vm_compute; reflexivity|].
  split; [vm_compute; reflexivity|].
  repeat split; vm_compute; reflexivity.
Qed.

Lemma matcher_ignores_ids_witness :
  let held := rfns.mkRecord 7 (str "old.example.com.") (str "A") (str "10.0.0.1")
                300 None in
  let old := Legacy.mkRecord (str "7") (str "A") (str "new") (str "10.0.0.1")
               (seconds 300) 0 in
  upsert_matches zone (RR_of www1) (rfns.with_ID 1 held)
  = upsert_matches zone (RR_of www1) held /\
  upsert_matches zone (RR_of www1) rec_www1 = true /\
  delete_matches zone (RR_of www1) rec_www1 = true /\
  Legacy.upsert_matches zone old held = true /\
  Legacy.delete_matches zone old held = true.
Proof.
  cbv zeta.
  pose proof (matcher_ignores_ids zone (RR_of www1)
                (rfns.mkRecord 7 (str "old.example.com.") (str "A")
                   (str "10.0.0.1") 300 None) 1)
    as (_ & _ & _ & H1 & _ & _ & _ & H3).
  pose proof (matcher_ignores_ids zone (RR_of www1) rec_www1 1)
    as (_ & Hu & Hd & _).
  split; [exact H1|].
  split; [apply Hu; split; reflexivity|].
  split; [apply Hd; repeat split; reflexivity|].
  apply H3. reflexivity.
Defined.

Lemma delete_matches_strictly_witness :
  DeleteRecords_loop zone (db w0) [txt "nope" "x"] [] (start w0)
  = (Val ([], Some (Errorf (not_found_msg (RR_of (txt "nope" "x"))))), start w0) /\
  DeleteRecords_loop zone (db w0) [www2] [] (start w0)
  = delete_step zone (db w0) www2 [] [] 3 (start w0) /\
  DeleteRecords zone [www2] (start w0)
  = (Val ([www2], None),
     mkSt (mkProvider [rec_mail; rec_www1] 4 [str "bad.example.com."] [2%Z])
       [rfns.CallGet zone; rfns.CallDelete 3]).
Proof.
  split; [|split].
  - apply (proj1 (proj2 (delete_matches_strictly zone (db w0) (txt "nope" "x")
                           [] [] (start w0)))).
    intros rec [<- | [<- | [<- | []]]]; vm_compute; reflexivity.
  - apply (proj1 (proj2 (proj2 (delete_matches_strictly zone (db w0) www2
                                  [] [] (start w0))))
             [rec_mail; rec_www1] rec_www3 []).
    + reflexivity.
    + intros rec [<- | [<- | []]]; vm_compute; reflexivity.
    + vm_compute; reflexivity.
    + vm_compute; discriminate.
  - vm_compute; reflexivity.
Defined.

(** C6, as stated, fails for delete: when the provider refuses to delete
    the second of three records, the error that comes back is wrapped
    with the ID of the matched record and not with the record's name. *)
Lemma delete_error_carries_id_not_name :
  fst (DeleteRecords zone [www2; txt "mail" "v=spf1 -all"; www1] (start w0))
  = Val ([], Some (Errorf_w (str "failed to delete record ID 2")
                     (ClientErr (str "refused")))) /\
  libdns.Name (RR_of (txt "mail" "v=spf1 -all")) = str "mail" /\
  strings.Contains (str "failed to delete record ID 2") (str "mail") = false.
Proof. repeat split; vm_compute; reflexivity. Qed.

Lemma batch_fail_fast_witness :
  let l1 := [txt "a" "1"] in
  let bad := txt "bad" "2" in
  let l2 := [txt "c" "3"] in
  let appended := AppendRecords zone (l1 ++ bad :: l2) (start w0) in
  let set := SetRecords zone (l1 ++ bad :: l2) (start w0) in
  let missing := DeleteRecords zone ([www2] ++ txt "nope" "x" :: [www1]) (start w0) in
  let refused :=
    DeleteRecords zone ([www2] ++ txt "mail" "v=spf1 -all" :: [www1]) (start w0) in
  (fst appended
   = Val ([], Some (Errorf_w (str "failed to create record bad")
                      (ClientErr (str "refused"))))
   /\ calls (snd appended)
      = [rfns.CallCreate (convertFromLibdnsRecord (txt "a" "1") zone);
         rfns.CallCreate (convertFromLibdnsRecord bad zone)]
   /\ length (db (world (snd appended))) = 4%nat) /\
  (fst set
   = Val ([], Some (Errorf_w (str "failed to update record bad")
                      (ClientErr (str "refused"))))
   /\ length (calls (snd set)) = 4%nat
   /\ length (db (world (snd set))) = 4%nat) /\
  (fst missing
   = Val ([], Some (Errorf (not_found_msg (RR_of (txt "nope" "x")))))
   /\ calls (snd missing) = [rfns.CallGet zone; rfns.CallDelete 3]) /\
  (fst refused
   = Val ([], Some (Errorf_w (str "failed to delete record ID 2")
                      (ClientErr (str "refused"))))
   /\ calls (snd refused)
      = [rfns.CallGet zone; rfns.CallDelete 3; rfns.CallDelete 2]).
Proof.
  cbv zeta. split; [|split; [|split]].
  - erewrite (proj1 (batch_fail_fast zone [txt "a" "1"] (txt "bad" "2")
                       [txt "c" "3"]))
      by (vm_compute; reflexivity).
    repeat split; vm_compute; reflexivity.
  - erewrite (proj1 (proj2 (batch_fail_fast zone [txt "a" "1"] (txt "bad" "2")
                              [txt "c" "3"])))
      by (vm_compute; reflexivity).
    repeat split; vm_compute; reflexivity.
  - erewrite (proj1 (proj2 (proj2 (batch_fail_fast zone [www2] (txt "nope" "x")
                                     [www1]))))
      by (vm_compute; reflexivity).
    repeat split; vm_compute; reflexivity.
  - erewrite (proj2 (proj2 (proj2 (batch_fail_fast zone [www2]
                                     (txt "mail" "v=spf1 -all") [www1]))))
      by (vm_compute; solve [reflexivity | discriminate]).
    repeat split; vm_compute; reflexivity.
Defined.

Lemma decode_needs_nonempty_name_witness :
  (exists r, convertToLibdnsRecord rec_www1 zone = Some r
             /\ Name_of r = str "www"
             /\ (is_SRV r = false -> libdns.Name (RR_of r) = str "www")) /\
  (exists r, convertToLibdnsRecord rec_mail zone = Some r) /\
  fst (GetRecords zone
         (start (mkProvider [rec_www1; rfns.mkRecord 5 [] (str "A") [] 300 None]
                   6 [] [])))
  = Panic.
Proof.
  split; [|split].
  - apply (proj1 (proj2 (decode_needs_nonempty_name rec_www1 zone))
             (str "www.example.com") dot).
    reflexivity.
  - apply (proj1 (proj2 (proj2 (decode_needs_nonempty_name rec_mail zone)))).
    reflexivity.
  - eapply (proj2 (proj2 (proj2 (decode_needs_nonempty_name rec_mail zone)))).
    + reflexivity.
    + eexists. split; [right; left; reflexivity | reflexivity].
Defined.

(** ** The further properties at work on the in-memory provider *)

Lemma Sim_name_ok_www : spec.name_ok (str "www") zone.
Proof. repeat split; solve [discriminate | reflexivity]. Qed.

Lemma Sim_name_ok_mail : spec.name_ok (str "mail") zone.
Proof. repeat split; solve [discriminate | reflexivity]. Qed.

Lemma match_separates_names_witness :
  spec.name_ok (libdns.Name (RR_of www1)) zone /\
  upsert_matches zone (RR_of www1) (rfns.with_ID 5 (upsert_update_rec www2 zone))
  = true /\
  delete_matches zone (RR_of www1)
    (rfns.with_ID 5 (convertFromLibdnsRecord www1 zone)) = true.
Proof.
  split; [exact Sim_name_ok_www|]. split.
  - apply (proj1 (match_separates_names www1 www2 zone 5
                    Sim_name_ok_www Sim_name_ok_www)).
    split; reflexivity.
  - apply (proj2 (match_separates_names www1 www1 zone 5
                    Sim_name_ok_www Sim_name_ok_www)).
    repeat split; reflexivity.
Defined.

Lemma decoded_fields_come_from_data_witness :
  let rec := rfns.mkRecord 8 (str "host.example.com.") (str "srv")
               (str "10 20 443 sip.example.com") 300 None in
  convertToLibdnsRecord rec zone
  = Some (SRV (str "host") (seconds 300) 10 20 443 (str "sip.example.com")) /\
  strings_ToUpper (rfns.Type_ rec) = str "SRV" /\
  (10 < 2 ^ 16)%N /\ (20 < 2 ^ 16)%N /\ (443 < 2 ^ 16)%N /\
  exists p0 p1 p2,
    strings.Fields (rfns.Data rec) = [p0; p1; p2; str "sip.example.com"]
    /\ strconv.ParseUint p0 16 = Some 10%N
    /\ strconv.ParseUint p1 16 = Some 20%N
    /\ strconv.ParseUint p2 16 = Some 443%N.
Proof.
  cbv zeta.
  assert (H : convertToLibdnsRecord
                (rfns.mkRecord 8 (str "host.example.com.") (str "srv")
                   (str "10 20 443 sip.example.com") 300 None) zone
              = Some (SRV (str "host") (seconds 300) 10 20 443
                        (str "sip.example.com")))
    by (vm_compute; reflexivity).
  split; [exact H|].
  exact (decoded_fields_come_from_data _ _ _ H).
Defined.

Lemma listed_record_is_found_again_witness :
  spec.name_ok (str "mail") zone /\
  rfns.Name rec_mail = fqdn (str "mail") zone /\
  exists r,
    convertToLibdnsRecord rec_mail zone = Some r /\
    Name_of r = str "mail" /\
    (is_SRV r = false -> libdns.Name (RR_of r) = str "mail") /\
    (libdns.Name (RR_of r) = str "mail" ->
     (upsert_matches zone (RR_of r) rec_mail = true
      <-> rfns.Type_ rec_mail = libdns.Type_ (RR_of r))).
Proof.
  split; [exact Sim_name_ok_mail|]. split; [reflexivity|].
  destruct (listed_record_is_found_again rec_mail zone (str "mail")
              Sim_name_ok_mail eq_refl) as (r & Hr & Hn & Hrr & Hm).
  exists r. split; [exact Hr|]. split; [exact Hn|]. split; [exact Hrr|].
  intros Hk. exact (proj1 (Hm Hk)).
Defined.

Lemma apex_record_is_not_found_again_witness :
  let apex := rfns.mkRecord 9 (str "example.com.") (str "A") (str "10.0.0.9")
                300 None in
  exists r,
    convertToLibdnsRecord apex zone = Some r /\
    Name_of r = str "@" /\
    (is_SRV r = false -> libdns.Name (RR_of r) = str "@") /\
    fqdn (str "@") zone = str "@.example.com." /\
    fqdn (rfns.Name apex) zone = str "example.com." /\
    (libdns.Name (RR_of r) = str "@" ->
     upsert_matches zone (RR_of r) apex = false /\
     delete_matches zone (RR_of r) apex = false).
Proof.
  cbv zeta.
  apply (apex_record_is_not_found_again
           (rfns.mkRecord 9 (str "example.com.") (str "A") (str "10.0.0.9")
              300 None) zone).
  - vm_compute. discriminate.
  - vm_compute. discriminate.
  - reflexivity.
  - reflexivity.
Defined.

Lemma GetRecords_lists_every_record_witness :
  exists l,
    GetRecords zone (start w0)
    = (Val (l, None), log (start w0) w0 (rfns.CallGet zone)) /\
    Forall2 (fun rec r => convertToLibdnsRecord rec zone = Some r)
      [rec_mail; rec_www1; rec_www3] l.
Proof.
  apply (GetRecords_lists_every_record zone (start w0)
           [rec_mail; rec_www1; rec_www3] None w0).
  - reflexivity.
  - intros rec [<- | [<- | [<- | []]]]; discriminate.
Defined.

Lemma upsert_updates_sent_record_witness :
  let stored := rfns.with_ID 1 (upsert_update_rec www1 zone) in
  let s := start (mkProvider [stored] 2 [] []) in
  exists c,
    In c [stored] /\ upsert_matches zone (RR_of www1) c = true /\
    calls (snd (upsertRecord www1 zone s))
    = calls s ++ [rfns.CallGet zone;
                  rfns.CallUpdate (rfns.ID c) (upsert_update_rec www1 zone)].
Proof.
  cbv zeta.
  apply (upsert_updates_sent_record www1 zone
           (start (mkProvider [rfns.with_ID 1 (upsert_update_rec www1 zone)]
                     2 [] []))
           [rfns.with_ID 1 (upsert_update_rec www1 zone)]
           (mkProvider [rfns.with_ID 1 (upsert_update_rec www1 zone)] 2 [] [])).
  - reflexivity.
  - eexists. split; [left; reflexivity|]. split; reflexivity.
Defined.


Lemma delete_finds_sent_record_witness :
  let stored := rfns.with_ID 4 (convertFromLibdnsRecord (txt "a" "1") zone) in
  picked zone [rec_mail; stored] (txt "a" "1") /\
  find_rrid zone (RR_of (txt "a" "1")) [rec_mail; stored] = 4%Z.
Proof.
  cbv zeta.
  destruct (delete_finds_sent_record (txt "a" "1") zone
              [rec_mail;
               rfns.with_ID 4 (convertFromLibdnsRecord (txt "a" "1") zone)]
              [] [] (start w0)) as [Hp _].
  - intros rec [<- | [<- | []]]; vm_compute; discriminate.
  - eexists. split; [right; left; reflexivity|]. repeat split; reflexivity.
  - split; [exact Hp | vm_compute; reflexivity].
Defined.

Lemma earlier_matcher_without_id_witness :
  let old := Legacy.mkRecord [] (str "A") (str "www") (str "10.0.0.2")
               (seconds 300) 0 in
  Legacy.ID old = [] /\
  LegacyProvider.find_rrid zone old (db w0) = find_rrid zone (RR_of www2) (db w0) /\
  find_rrid zone (RR_of www2) (db w0) = 3%Z.
Proof.
  cbv zeta. split; [reflexivity|]. split; [|vm_compute; reflexivity].
  exact (proj2 (proj2 (proj2
           (earlier_matcher_without_id zone
              (Legacy.mkRecord [] (str "A") (str "www") (str "10.0.0.2")
                 (seconds 300) 0) (db w0) eq_refl)))).
Defined.


Lemma earlier_upsert_follows_id_witness :
  let held := rfns.mkRecord 7 (str "old.example.com.") (str "A") (str "10.0.0.1")
                300 None in
  let old := Legacy.mkRecord (str "7") (str "A") (str "new") (str "10.0.0.1")
               (seconds 300) 0 in
  calls (snd (LegacyProvider.upsertRecord old zone
                (start (mkProvider [rec_mail; held] 8 [] []))))
  = [rfns.CallGet zone;
     rfns.CallUpdate 7 (LegacyProvider.update_rec old zone)].
Proof.
  cbv zeta.
  set (held := rfns.mkRecord 7 (str "old.example.com.") (str "A")
                 (str "10.0.0.1") 300 None).
  set (old := Legacy.mkRecord (str "7") (str "A") (str "new") (str "10.0.0.1")
                (seconds 300) 0).
  refine (proj1 (earlier_upsert_follows_id old zone
                   (start (mkProvider [rec_mail; held] 8 [] []))
                   [rec_mail] [] held (mkProvider [rec_mail; held] 8 [] [])
                   eq_refl _ _)).
  - intros rec [<- | []]. vm_compute. reflexivity.
  - reflexivity.
Defined.

Lemma decode_ignores_case_of_type_witness :
  let lower := rfns.mkRecord 8 (str "host.example.com.") (str "mx")
                 (str "10 mail.example.com") 300 None in
  let upper := rfns.mkRecord 8 (str "host.example.com.") (str "MX")
                 (str "10 mail.example.com") 300 None in
  convertToLibdnsRecord lower zone = Some mx /\
  convertToLibdnsRecord upper zone = Some mx.
Proof.
  cbv zeta.
  pose proof (decode_ignores_case_of_type
                (rfns.mkRecord 8 (str "host.example.com.") (str "mx")
                   (str "10 mail.example.com") 300 None)
                (rfns.mkRecord 8 (str "host.example.com.") (str "MX")
                   (str "10 mail.example.com") 300 None)
                zone eq_refl eq_refl eq_refl eq_refl eq_refl eq_refl) as H.
  assert (H1 : convertToLibdnsRecord
                 (rfns.mkRecord 8 (str "host.example.com.") (str "mx")
                    (str "10 mail.example.com") 300 None) zone = Some mx)
    by (vm_compute; reflexivity).
  rewrite H1 in H. split; [exact H1|].
  destruct (convertToLibdnsRecord
              (rfns.mkRecord 8 (str "host.example.com.") (str "MX")
                 (str "10 mail.example.com") 300 None) zone) as [r|];
    [|contradiction].
  unfold mx in *. cbv beta iota in H. now rewrite <- H.
Defined.
